(** * Chess Q&A chatbot (bot.py): guardrails, personalization and session logic

    A shallow embedding of [src/bot.py] and the properties of its
    specification.

    Texts.  A Python [str] is a sequence of code points.  Here a text is a
    [string], whose characters are the 256 code points U+0000..U+00FF; the
    character tables below ([isspace], [isword], [lower_char]) are Python's
    tables restricted to that range.  The pictographs and bullets of the
    canned replies lie outside the range and are held as the bytes the
    source file has for them; the program only stores and shows them.

    Effects.  The session state is passed explicitly.  The language-model
    client is a parameter of each turn, and a turn returns, next to the new
    session, the prompts it sent to the client. *)

From Stdlib Require Import String Ascii List Bool Arith NArith Lia.
From Stdlib Require Import DecimalString.
Import ListNotations.
Open Scope string_scope.

(* ------------------------------------------------------------------ *)
(** ** Python string operations *)

Module PyStr.

Definition code (c : ascii) : N := N_of_ascii c.

Definition between (lo hi : N) (c : ascii) : bool :=
  (N.leb lo (code c) && N.leb (code c) hi)%bool.

(** [str.isspace] on one character; also the class [\s] of [re] on [str]
    patterns. *)
Definition isspace (c : ascii) : bool :=
  (between 9 13 c || between 28 32 c
   || N.eqb (code c) 133 || N.eqb (code c) 160)%bool.

(** The class [\w] of [re] on [str] patterns: alphanumeric or underscore. *)
Definition isword (c : ascii) : bool :=
  (between 48 57 c || between 65 90 c || N.eqb (code c) 95
   || between 97 122 c
   || N.eqb (code c) 170 || between 178 179 c || N.eqb (code c) 181
   || between 185 186 c || between 188 190 c
   || between 192 214 c || between 216 246 c || between 248 255 c)%bool.

Definition has_lower (c : ascii) : bool :=
  (between 65 90 c || between 192 214 c || between 216 222 c)%bool.

Definition has_upper (c : ascii) : bool :=
  (between 97 122 c || between 224 246 c || between 248 254 c)%bool.

Definition lower_char (c : ascii) : ascii :=
  if has_lower c then ascii_of_N (code c + 32) else c.

(** Upper-case image of one character.  U+00DF has the two-letter image
    "SS"; the images of U+00B5 and U+00FF lie outside the range and the
    character is kept.  The program upper-cases role names and
    capitalizes captures of [[a-zA-Z]+] only. *)
Definition upper_char (c : ascii) : string :=
  if has_upper c then String (ascii_of_N (code c - 32)) ""
  else if N.eqb (code c) 223 then "SS"
  else String c "".

Definition title_char (c : ascii) : string :=
  if N.eqb (code c) 223 then "Ss" else upper_char c.

(** [str.lower] *)
Fixpoint lower (s : string) : string :=
  match s with
  | "" => ""
  | String c s' => String (lower_char c) (lower s')
  end.

(** [str.upper] *)
Fixpoint upper (s : string) : string :=
  match s with
  | "" => ""
  | String c s' => upper_char c ++ upper s'
  end.

(** [str.capitalize]: first character title-cased, the rest lower-cased. *)
Definition capitalize (s : string) : string :=
  match s with
  | "" => ""
  | String c s' => title_char c ++ lower s'
  end.

Fixpoint lstrip (s : string) : string :=
  match s with
  | "" => ""
  | String c s' => if isspace c then lstrip s' else s
  end.

Fixpoint rstrip (s : string) : string :=
  match s with
  | "" => ""
  | String c s' =>
      match rstrip s' with
      | "" => if isspace c then "" else String c ""
      | r => String c r
      end
  end.

(** [str.strip()] with no argument: white space removed at both ends. *)
Definition strip (s : string) : string := rstrip (lstrip s).

(** [s.startswith(p)] *)
Fixpoint startswith (p s : string) : bool :=
  match p, s with
  | "", _ => true
  | String a p', String b s' => (Ascii.eqb a b && startswith p' s')%bool
  | String _ _, "" => false
  end.

(** [needle in hay] on strings: substring test. *)
Fixpoint isin (needle hay : string) : bool :=
  if startswith needle hay then true
  else match hay with
       | "" => false
       | String _ hay' => isin needle hay'
       end.

(** [x in l] on a list of strings. *)
Definition mem (x : string) (l : list string) : bool :=
  existsb (String.eqb x) l.

(** Truthiness of a [str]. *)
Definition truthy (s : string) : bool :=
  match s with "" => false | _ => true end.

(** An optional string as a condition, [if x:]: it holds for a string that
    is set and not empty, which [nonempty] then gives. *)
Definition nonempty (x : option string) : option string :=
  match x with
  | Some s => if truthy s then Some s else None
  | None => None
  end.

(** [x or d] *)
Definition or_else (x : option string) (d : string) : string :=
  match nonempty x with
  | Some s => s
  | None => d
  end.

(** [str(n)] for a non-negative [int]. *)
Definition str_of_nat (n : nat) : string :=
  NilZero.string_of_uint (Nat.to_uint n).

(** [c * n] *)
Fixpoint repeat_char (c : ascii) (n : nat) : string :=
  match n with
  | O => ""
  | S n' => String c (repeat_char c n')
  end.

End PyStr.

(* ------------------------------------------------------------------ *)
(** ** The fragment of Python's [re] the program uses

    A backtracking matcher in continuation-passing style: alternatives are
    tried left to right, [?] and [+] are greedy, [re.search] takes the
    leftmost start position at which the pattern matches. *)

Module Re.
Import PyStr.

(** Character sets. *)
Inductive cls : Type :=
| CRange (lo hi : ascii)      (* [a-h] *)
| COneOf (s : string)         (* [KQRBN] *)
| CSpace                      (* \s *)
| CUnion (a b : cls).         (* [a-zA-Z] *)

Fixpoint one_of (s : string) (c : ascii) : bool :=
  match s with
  | "" => false
  | String a s' => (Ascii.eqb a c || one_of s' c)%bool
  end.

Fixpoint in_cls (k : cls) (c : ascii) : bool :=
  match k with
  | CRange lo hi => between (code lo) (code hi) c
  | COneOf s => one_of s c
  | CSpace => isspace c
  | CUnion a b => (in_cls a c || in_cls b c)%bool
  end.

Inductive regex : Type :=
| Lit (s : string)            (* a literal run of characters *)
| Cls (k : cls)               (* one character of a set *)
| Bol                         (* ^ *)
| Wordb                       (* \b *)
| Cat (r1 r2 : regex)         (* r1 r2 *)
| Alt (r1 r2 : regex)         (* r1|r2 *)
| Opt (r : regex)             (* r? *)
| Plus (k : cls)              (* [set]+ *)
| Group (r : regex).          (* ( r ), the capturing group 1 *)

(** Position in the subject: offset, the character before it (none at
    offset 0) and the text ahead. *)
Record cursor : Type := mkCursor
  { pos : nat; before : option ascii; ahead : string }.

(** Span of group 1, as start and end offsets, when it took part. *)
Definition mark : Type := option (nat * nat).

Definition word_at (c : option ascii) : bool :=
  match c with Some a => isword a | None => false end.

Definition next_char (s : string) : option ascii :=
  match s with "" => None | String a _ => Some a end.

(** [eat p c]: the cursor after the literal [p], when the text ahead
    starts with it. *)
Fixpoint eat (p : string) (c : cursor) : option cursor :=
  match p with
  | "" => Some c
  | String a p' =>
      match ahead c with
      | "" => None
      | String b s' =>
          if Ascii.eqb a b
          then eat p' (mkCursor (S (pos c)) (Some b) s')
          else None
      end
  end.

Section Matcher.
Context {A : Type}.

(** Greedy [set+] from offset [n]: as many characters as possible,
    giving them back one at a time when the rest fails. *)
Fixpoint plus_from (k : cls) (n : nat) (s : string) (g : mark)
         (cont : cursor -> mark -> option A) : option A :=
  match s with
  | "" => None
  | String a s' =>
      if in_cls k a then
        match plus_from k (S n) s' g cont with
        | Some x => Some x
        | None => cont (mkCursor (S n) (Some a) s') g
        end
      else None
  end.

Fixpoint run (r : regex) (c : cursor) (g : mark)
         (cont : cursor -> mark -> option A) : option A :=
  match r with
  | Lit s => match eat s c with
             | Some c' => cont c' g
             | None => None
             end
  | Cls k => match ahead c with
             | "" => None
             | String a s' =>
                 if in_cls k a
                 then cont (mkCursor (S (pos c)) (Some a) s') g
                 else None
             end
  | Bol => match before c with
           | None => cont c g
           | Some _ => None
           end
  | Wordb => if xorb (word_at (before c)) (word_at (next_char (ahead c)))
             then cont c g else None
  | Cat r1 r2 => run r1 c g (fun c' g' => run r2 c' g' cont)
  | Alt r1 r2 => match run r1 c g cont with
                 | Some x => Some x
                 | None => run r2 c g cont
                 end
  | Opt r1 => match run r1 c g cont with
              | Some x => Some x
              | None => cont c g
              end
  | Plus k => plus_from k (pos c) (ahead c) g cont
  | Group r1 => run r1 c g (fun c' _ => cont c' (Some (pos c, pos c')))
  end.
End Matcher.

(** A match object: the span of the whole match and of group 1. *)
Record match_obj : Type := mkMatch
  { m_start : nat; m_end : nat; m_group1 : mark }.

Definition match_at (r : regex) (c : cursor) : option match_obj :=
  run r c None (fun c' g => Some (mkMatch (pos c) (pos c') g)).

Fixpoint search_from (r : regex) (n : nat) (b : option ascii) (s : string)
  : option match_obj :=
  match match_at r (mkCursor n b s) with
  | Some m => Some m
  | None => match s with
            | "" => None
            | String a s' => search_from r (S n) (Some a) s'
            end
  end.

(** [re.search(pattern, text)] *)
Definition search (r : regex) (text : string) : option match_obj :=
  search_from r 0 None text.

(** Truthiness of the result of [re.search]. *)
Definition found (r : regex) (text : string) : bool :=
  match search r text with Some _ => true | None => false end.

(** [match.group(1)] on the subject [text]. *)
Definition group1 (text : string) (m : match_obj) : string :=
  match m_group1 m with
  | Some (s, e) => substring s (e - s) text
  | None => ""
  end.

End Re.

Declare Scope re_scope.
Delimit Scope re_scope with re.
Bind Scope re_scope with Re.regex.
Infix "<|>" := Re.Alt (at level 61, right associativity) : re_scope.
Infix "<.>" := Re.Cat (at level 60, right associativity) : re_scope.

(** The line feed. *)
Definition nl : string := String "010" "".

(* ------------------------------------------------------------------ *)
(** ** Configuration *)

Module Config.

Definition MEMORY_K : nat := 10.

Definition GREETING_MESSAGE : string :=
  "üëã Hello! I'm your Chess Q&A Bot!" ++ nl ++
  "    " ++ nl ++
  "Ask me anything about chess - rules, openings, strategies, famous players, tournaments, and chess history!".

End Config.

(* ------------------------------------------------------------------ *)
(** ** Guardrails: the chess-only filter *)

Module ChessGuardrails.
Import PyStr Re.
Local Open Scope re_scope.

Definition CHESS_KEYWORDS : list string :=
  [ "chess"; "checkmate"; "stalemate"; "draw"; "resign";
    "pawn"; "knight"; "bishop"; "rook"; "queen"; "king";
    "castling"; "en passant"; "promotion"; "capture";
    "opening"; "middlegame"; "endgame"; "gambit"; "defense";
    "fork"; "pin"; "skewer"; "sacrifice"; "tactic"; "strategy";
    "grandmaster"; "fide"; "elo"; "rating"; "tournament";
    "carlsen"; "kasparov"; "fischer"; "karpov"; "tal";
    "move"; "board"; "square"; "piece"; "position"; "game" ].

(** [[a-zA-Z]] *)
Definition letter : cls := CUnion (CRange "a" "z") (CRange "A" "Z").

(** The words of the first pattern of [greeting_patterns]. *)
Definition leading_greetings : regex :=
  Lit "hi" <|> Lit "hello" <|> Lit "hey" <|> Lit "greetings"
  <|> Lit "good morning" <|> Lit "good afternoon" <|> Lit "good evening".

Definition introductions : regex :=
  Lit "i am" <|> Lit "i'm" <|> Lit "my name is" <|> Lit "this is"
  <|> Lit "call me".

Definition leading_farewells : regex :=
  Lit "thank you" <|> Lit "thanks" <|> Lit "bye" <|> Lit "goodbye".

Definition greeting_patterns : list regex :=
  [ (* ^(hi|hello|hey|greetings|good morning|good afternoon|good evening) *)
    Bol <.> Group leading_greetings;
    (* (i am|i\'m|my name is|this is|call me)\s+[a-zA-Z]+ *)
    Group introductions <.> Plus CSpace <.> Plus letter;
    (* ^(thank you|thanks|bye|goodbye) *)
    Bol <.> Group leading_farewells ].

(** The chess notation patterns. *)

(** [\b[a-h][1-8]\b], as in e4, d5 *)
Definition square : regex :=
  Wordb <.> Cls (CRange "a" "h") <.> Cls (CRange "1" "8") <.> Wordb.

(** [\b[KQRBN][a-h]?[1-8]?\b], as in Nf3, Qd4 *)
Definition piece_move : regex :=
  Wordb <.> Cls (COneOf "KQRBN") <.> Opt (Cls (CRange "a" "h"))
    <.> Opt (Cls (CRange "1" "8")) <.> Wordb.

(** [\bO-O(-O)?\b], castling *)
Definition castling : regex :=
  Wordb <.> Lit "O-O" <.> Opt (Group (Lit "-O")) <.> Wordb.

Definition patterns : list regex := [ square; piece_move; castling ].

Definition is_chess_related (text : string) : bool :=
  let text_lower := lower text in
  if existsb (fun pattern => found pattern text_lower) greeting_patterns
  then true
  else if existsb (fun keyword => isin keyword text_lower) CHESS_KEYWORDS
  then true
  else if existsb (fun pattern => found pattern text) patterns
  then true
  else false.

Definition get_rejection_message : string :=
  "üö´ I'm sorry, but I can only answer questions related to chess." ++ nl ++
  "" ++ nl ++
  "Please ask me about:" ++ nl ++
  "‚Ä¢ Chess rules and regulations" ++ nl ++
  "‚Ä¢ Opening strategies and defenses" ++ nl ++
  "‚Ä¢ Famous players and games" ++ nl ++
  "‚Ä¢ Chess tactics and strategies" ++ nl ++
  "‚Ä¢ Tournament history" ++ nl ++
  "‚Ä¢ Anything else chess-related!".

End ChessGuardrails.

(* ------------------------------------------------------------------ *)
(** ** Personalization: name extraction and greetings *)

Module PersonalizationHelper.
Import PyStr Re.
Local Open Scope re_scope.

Definition letter : cls := ChessGuardrails.letter.

Definition patterns : list regex :=
  [ (* (?:i am|i'm|my name is|this is|call me)\s+([a-zA-Z]+) *)
    (Lit "i am" <|> Lit "i'm" <|> Lit "my name is" <|> Lit "this is"
     <|> Lit "call me")
      <.> Plus CSpace <.> Group (Plus letter);
    (* ^(?:hi|hello|hey),?\s+(?:i am|i'm)\s+([a-zA-Z]+) *)
    Bol <.> (Lit "hi" <|> Lit "hello" <|> Lit "hey") <.> Opt (Lit ",")
      <.> Plus CSpace <.> (Lit "i am" <|> Lit "i'm")
      <.> Plus CSpace <.> Group (Plus letter);
    (* ^([a-zA-Z]+)\s+here *)
    Bol <.> Group (Plus letter) <.> Plus CSpace <.> Lit "here" ].

Definition excluded : list string :=
  [ "chess"; "here"; "there"; "player"; "learning" ].

(** The loop of [extract_name] over the patterns still to try. *)
Fixpoint extract_from (ps : list regex) (text_lower : string)
  : option string :=
  match ps with
  | [] => None
  | pattern :: rest =>
      match search pattern text_lower with
      | Some m =>
          let name := capitalize (group1 text_lower m) in
          if negb (mem (lower name) excluded) then Some name
          else extract_from rest text_lower
      | None => extract_from rest text_lower
      end
  end.

Definition extract_name (text : string) : option string :=
  let text_lower := lower text in
  extract_from patterns text_lower.

Definition simple_greetings : list string :=
  [ "hi"; "hello"; "hey"; "greetings";
    "good morning"; "good afternoon"; "good evening";
    "howdy"; "hiya"; "yo" ].

Definition is_greeting (text : string) : bool :=
  let text_lower := strip (lower text) in
  mem text_lower simple_greetings.

Definition get_greeting_response (user_name : option string) : string :=
  match nonempty user_name with
  | Some n =>
      "Hello again, " ++ n ++ "! üëã How can I help you with chess today?"
  | None =>
      "Hello! üëã Welcome to the Chess Q&A Bot! Feel free to introduce yourself or ask me any chess-related questions!"
  end.

End PersonalizationHelper.

(* ------------------------------------------------------------------ *)
(** ** The language-model client and its conversation memory

    The client and the memory are objects of an external library.  A call
    of the client either returns a completion or raises; the memory is a
    buffer of the exchanges saved so far, of which the last [MEMORY_K]
    exchanges are supplied to the next prompt. *)

Inductive chat_message : Type :=
| SystemMessage (content : string)
| HumanMessage (content : string)
| AIMessage (content : string).

(** What one call of the client does: the text it returns, or the text
    [str(e)] of the exception it raises. *)
Inductive outcome : Type :=
| Returned (text : string)
| Raised (error : string).

Definition llm_client : Type := list chat_message -> outcome.

Module Memory.

Definition buffer : Type := list chat_message.

Definition empty : buffer := [].

(** The messages of the last [k] exchanges. *)
Definition window (k : nat) (b : buffer) : list chat_message :=
  skipn (length b - 2 * k) b.

Definition save_context (input output : string) (b : buffer) : buffer :=
  (b ++ [HumanMessage input; AIMessage output])%list.

Definition clear (b : buffer) : buffer := [].

End Memory.

(* ------------------------------------------------------------------ *)
(** ** Session state *)

Inductive role : Type := user | assistant.

Definition role_name (r : role) : string :=
  match r with
  | user => "user"
  | assistant => "assistant"
  end.

Record message : Type := mkMessage
  { msg_role : role; msg_content : string }.

(** The keys of [st.session_state] once they are all set. *)
Record session : Type := mkSession
  { messages : list message;
    user_name : option string;
    total_questions : nat;
    memory : Memory.buffer;
    session_start_time : string }.

(** [st.session_state] as the script finds it: every key may be missing.
    The keys [llm] and [memory] are set together. *)
Record session_state : Type := mkState
  { key_messages : option (list message);
    key_user_name : option (option string);
    key_total_questions : option nat;
    key_llm : option Memory.buffer;
    key_session_start_time : option string }.

Definition no_keys : session_state := mkState None None None None None.

Definition stored (s : session) : session_state :=
  mkState (Some (messages s)) (Some (user_name s))
          (Some (total_questions s)) (Some (memory s))
          (Some (session_start_time s)).

Definition seeded_greeting : message :=
  mkMessage assistant Config.GREETING_MESSAGE.

Definition setdefault {A : Type} (key : option A) (value : A) : A :=
  match key with
  | Some v => v
  | None => value
  end.

(** [initialize_langchain]: without an API key the script stops. *)
Definition initialize_langchain (GROQ_API_KEY : option string)
  : option Memory.buffer :=
  match PyStr.nonempty GROQ_API_KEY with
  | Some _ => Some Memory.empty
  | None => None
  end.

(** A run of the script either stops at start-up, leaving the keys set so
    far, or goes on with every key set. *)
Inductive startup : Type :=
| Stopped (st : session_state)
| Ready (s : session).

Definition initialize_session_state (GROQ_API_KEY : option string)
           (now : string) (st : session_state) : startup :=
  let msgs := setdefault (key_messages st) [seeded_greeting] in
  let name := setdefault (key_user_name st) None in
  let count := setdefault (key_total_questions st) 0 in
  let langchain :=
    match key_llm st with
    | Some mem => Some mem
    | None => initialize_langchain GROQ_API_KEY
    end in
  match langchain with
  | None =>
      Stopped (mkState (Some msgs) (Some name) (Some count) None
                       (key_session_start_time st))
  | Some mem =>
      Ready (mkSession msgs name count mem
                       (setdefault (key_session_start_time st) now))
  end.

(** The header of the export, the initial value of [history_text]; [now]
    is the export time. *)
Definition export_header (now : string) (s : session) : string :=
  nl ++
  "# Chess Q&A Chatbot - Conversation History" ++ nl ++
  "# Session Started: " ++ session_start_time s ++ nl ++
  "# User: " ++ PyStr.or_else (user_name s) "Anonymous" ++ nl ++
  "# Total Questions: " ++ PyStr.str_of_nat (total_questions s) ++ nl ++
  "# Export Time: " ++ now ++ nl ++
  nl ++
  PyStr.repeat_char "=" 60 ++ nl ++
  nl.

(** The loop over [enumerate(messages, idx)], adding to [history_text]. *)
Fixpoint export_loop (idx : nat) (msgs : list message)
         (history_text : string) : string :=
  match msgs with
  | [] => history_text
  | msg :: rest =>
      let role := PyStr.upper (role_name (msg_role msg)) in
      let content := msg_content msg in
      export_loop (S idx) rest
        (history_text ++ PyStr.str_of_nat idx ++ ". [" ++ role ++ "]" ++ nl
           ++ content ++ nl ++ nl)
  end.

(** [export_conversation_history] *)
Definition export_conversation_history (now : string) (s : session)
  : string :=
  export_loop 1 (messages s) (export_header now s).

(** The clear-chat button of the sidebar. *)
Definition clear_chat (s : session) : session :=
  mkSession [seeded_greeting] None 0 (Memory.clear (memory s))
            (session_start_time s).

(** The download button of the sidebar: shown once the history holds more
    than one message, with the file name and the data it offers. *)
Definition download_button (now : string) (s : session)
  : option (string * string) :=
  if Nat.ltb 1 (List.length (messages s)) then
    Some ("chess_chat_" ++ PyStr.or_else (user_name s) "anonymous" ++ ".txt",
          export_conversation_history now s)
  else None.

(* ------------------------------------------------------------------ *)
(** ** Chat logic *)

Definition system_message : string :=
  "You are an expert chess assistant with deep knowledge of chess rules, strategies, openings, endgames, famous players, and chess history." ++ nl ++
  "" ++ nl ++
  "Your responses should be:" ++ nl ++
  "- Accurate and factual about chess" ++ nl ++
  "- Clear and concise (2-4 sentences typically, longer for complex topics)" ++ nl ++
  "- Educational and friendly in tone" ++ nl ++
  "- Well-structured with proper formatting" ++ nl ++
  "- Only about chess topics" ++ nl ++
  "- Personalized with user's name when available" ++ nl ++
  "" ++ nl ++
  "When explaining moves, use standard algebraic notation (e.g., e4, Nf3, O-O)." ++ nl ++
  "When discussing players, include relevant context like nationality and era." ++ nl ++
  "Provide examples when explaining tactics or strategies.".

(** [create_chess_prompt]: the system message of the prompt template; the
    template then takes the chat history and the input. *)
Definition create_chess_prompt (name : option string) : string :=
  match PyStr.nonempty name with
  | Some n =>
      system_message ++ nl ++ nl ++ "The user's name is " ++ n
        ++ ". Use their name naturally in your responses when appropriate."
  | None => system_message
  end.

Definition format_prompt (system : string) (history : list chat_message)
           (input : string) : list chat_message :=
  (SystemMessage system :: history ++ [HumanMessage input])%list.

(** The message shown for an exception with text [e]. *)
Definition error_reply (e : string) : string :=
  let error_msg := PyStr.lower e in
  if (PyStr.isin "api key" error_msg || PyStr.isin "unauthorized" error_msg)%bool
  then "üîë **Authentication Error**: Invalid API key. Please check your .env file."
  else if PyStr.isin "rate limit" error_msg
  then "‚è±Ô∏è **Rate Limit**: Too many requests. Please wait a moment."
  else "‚ö†Ô∏è **Error**: " ++ e.

(** What a turn does besides changing the session: the prompts it sent to
    the client, in order. *)
Definition calls : Type := list (list chat_message).

(** [generate_response]: the reply, the memory afterwards and the calls of
    the client.  The chain saves an exchange in the memory when the client
    has returned. *)
Definition generate_response (llm : llm_client) (s : session)
           (user_input : string) : string * Memory.buffer * calls :=
  let prompt :=
    format_prompt (create_chess_prompt (user_name s))
                  (Memory.window Config.MEMORY_K (memory s)) user_input in
  match llm prompt with
  | Returned response =>
      (PyStr.strip response,
       Memory.save_context user_input response (memory s), [prompt])
  | Raised e => (error_reply e, memory s, [prompt])
  end.

Definition append_message (r : role) (content : string) (s : session)
  : session :=
  mkSession (messages s ++ [mkMessage r content])%list (user_name s)
            (total_questions s) (memory s) (session_start_time s).

Definition set_user_name (name : option string) (s : session) : session :=
  mkSession (messages s) name (total_questions s) (memory s)
            (session_start_time s).

(** The name extraction step of [main]. *)
Definition remember_name (user_input : string) (s : session) : session :=
  match PyStr.nonempty (user_name s) with
  | Some _ => s
  | None =>
      match PyStr.nonempty (PersonalizationHelper.extract_name user_input) with
      | Some name => set_user_name (Some name) s
      | None => s
      end
  end.

(** The body of [if user_input:] in [main]. *)
Definition handle_input (llm : llm_client) (s : session)
           (user_input : string) : session * calls :=
  let s1 := append_message user user_input s in
  let s2 := remember_name user_input s1 in
  if PersonalizationHelper.is_greeting user_input then
    let greeting_response :=
      PersonalizationHelper.get_greeting_response (user_name s2) in
    (append_message assistant greeting_response s2, [])
  else if negb (ChessGuardrails.is_chess_related user_input) then
    let rejection_msg := ChessGuardrails.get_rejection_message in
    (append_message assistant rejection_msg s2, [])
  else
    let '(response, mem, sent) := generate_response llm s2 user_input in
    let s3 := append_message assistant response s2 in
    (mkSession (messages s3) (user_name s3) (total_questions s3 + 1) mem
               (session_start_time s3),
     sent).

(** What triggers a run of the script. *)
Inductive event : Type :=
| NoInput
| ClearChat
| ChatInput (user_input : string).

(** One run of [main]: start-up, the sidebar, then the chat input.  After
    the clear-chat button the script is run again with no input. *)
Definition main (GROQ_API_KEY : option string) (now : string)
           (llm : llm_client) (st : session_state) (ev : event)
  : session_state * calls :=
  match initialize_session_state GROQ_API_KEY now st with
  | Stopped st' => (st', [])
  | Ready s =>
      match ev with
      | NoInput => (stored s, [])
      | ClearChat => (stored (clear_chat s), [])
      | ChatInput user_input =>
          if PyStr.truthy user_input then
            let (s', sent) := handle_input llm s user_input in
            (stored s', sent)
          else (stored s, [])
      end
  end.

(** A sequence of runs, each with the behaviour of the client and the
    clock at that time. *)
Fixpoint runs (GROQ_API_KEY : option string)
         (script : list (string * llm_client * event))
         (st : session_state) : session_state :=
  match script with
  | [] => st
  | (now, llm, ev) :: rest =>
      runs GROQ_API_KEY rest (fst (main GROQ_API_KEY now llm st ev))
  end.

(* ------------------------------------------------------------------ *)
(** ** Notions used in the statements *)

(** The words of an alternation of literals. *)
Fixpoint words (r : Re.regex) : list string :=
  match r with
  | Re.Lit s => [s]
  | Re.Alt a b => words a ++ words b
  | _ => []
  end.

(** The three steps of [is_chess_related], each on the text it reads. *)
Definition greeting_step (text : string) : bool :=
  existsb (fun pattern => Re.found pattern (PyStr.lower text))
          ChessGuardrails.greeting_patterns.

Definition keyword_step (text : string) : bool :=
  existsb (fun keyword => PyStr.isin keyword (PyStr.lower text))
          ChessGuardrails.CHESS_KEYWORDS.

Definition notation_step (subject : string) : bool :=
  existsb (fun pattern => Re.found pattern subject) ChessGuardrails.patterns.

(** The branch [main] takes for an input. *)
Inductive branch : Type := GreetingBranch | RejectionBranch | LLMBranch.

Definition dispatch (user_input : string) : branch :=
  if PersonalizationHelper.is_greeting user_input then GreetingBranch
  else if negb (ChessGuardrails.is_chess_related user_input)
       then RejectionBranch
       else LLMBranch.

(** No character of the text is a capital letter. *)
Fixpoint no_capital (s : string) : bool :=
  match s with
  | "" => true
  | String c s' => (negb (PyStr.has_lower c) && no_capital s')%bool
  end.

(** Sample session and clients for the examples. *)
Definition fresh_session : session :=
  mkSession [seeded_greeting] None 0 Memory.empty "2024-05-01 09:30:00".

Definition answering_client : llm_client :=
  fun _ => Returned " Nice to meet you! Ask me about any opening. ".

Definition failing_client : llm_client :=
  fun _ => Raised "Rate limit reached for requests".

(** The characters of a text all lie in a set. *)
Fixpoint all_in (k : Re.cls) (s : string) : bool :=
  match s with
  | "" => true
  | String c s' => (Re.in_cls k c && all_in k s')%bool
  end.

(** A cursor of the matcher lies on the text [t]. *)
Definition at_text (t : string) (c : Re.cursor) : Prop :=
  exists pre, t = pre ++ Re.ahead c /\ String.length pre = Re.pos c.

(** A mark, when set, is the span of a non-empty run of letters of [t]. *)
Definition mark_ok (t : string) (g : Re.mark) : Prop :=
  match g with
  | None => True
  | Some (a, b) =>
      exists pre tok post,
        t = pre ++ tok ++ post /\ String.length pre = a
        /\ a + String.length tok = b
        /\ tok <> "" /\ all_in ChessGuardrails.letter tok = true
  end.

(** Every group of the pattern is [([a-zA-Z]+)]. *)
Fixpoint captures_letters (r : Re.regex) : Prop :=
  match r with
  | Re.Group (Re.Plus k) => k = ChessGuardrails.letter
  | Re.Group _ => False
  | Re.Cat a b | Re.Alt a b => captures_letters a /\ captures_letters b
  | Re.Opt a => captures_letters a
  | _ => True
  end.

(** Every match of the pattern goes through a group. *)
Fixpoint sets_mark (r : Re.regex) : bool :=
  match r with
  | Re.Group _ => true
  | Re.Cat a b => (sets_mark a || sets_mark b)%bool
  | Re.Alt a b => (sets_mark a && sets_mark b)%bool
  | _ => false
  end.

(** One block of the exported transcript. *)
Definition transcript_block (idx : nat) (msg : message) : string :=
  PyStr.str_of_nat idx ++ ". [" ++ PyStr.upper (role_name (msg_role msg))
    ++ "]" ++ nl ++ msg_content msg ++ nl ++ nl.

(** The blocks of the messages in order, numbered from [idx]. *)
Fixpoint numbered_blocks (idx : nat) (msgs : list message) : string :=
  match msgs with
  | [] => ""
  | msg :: rest => transcript_block idx msg ++ numbered_blocks (S idx) rest
  end.

(** A sequence of completed turns: a user message, then an assistant
    message, and so on. *)
Inductive turns : list message -> Prop :=
| turns_nil : turns []
| turns_cons (input reply : string) (rest : list message) :
    turns rest ->
    turns (mkMessage user input :: mkMessage assistant reply :: rest).

(** A history: the seeded greeting, then completed turns. *)
Definition history (msgs : list message) : Prop :=
  exists rest, msgs = seeded_greeting :: rest /\ turns rest.

(** What a session state holds under the key [messages], if anything, is
    a history. *)
Definition keeps_history (st : session_state) : Prop :=
  forall msgs, key_messages st = Some msgs -> history msgs.

(** The reply [generate_response] gives for an outcome of the client. *)
Definition reply_of (o : outcome) : string :=
  match o with
  | Returned response => PyStr.strip response
  | Raised e => error_reply e
  end.

(** The prompt of the language-model branch for an input. *)
Definition prompt_for (s : session) (user_input : string)
  : list chat_message :=
  format_prompt (create_chess_prompt (user_name s))
                (Memory.window Config.MEMORY_K (memory s)) user_input.

(** The character before the end of [pre]; [b] when [pre] is empty. *)
Fixpoint before_end (b : option ascii) (pre : string) : option ascii :=
  match pre with
  | "" => b
  | String a pre' => before_end (Some a) pre'
  end.

(** The text neither starts nor ends with white space. *)
Definition trimmed (s : string) : bool :=
  match Re.next_char s, before_end None s with
  | Some a, Some b => (negb (PyStr.isspace a) && negb (PyStr.isspace b))%bool
  | _, _ => true
  end.

(** A capital letter A-Z followed by small letters a-z. *)
Definition capitalized (name : string) : bool :=
  match name with
  | "" => false
  | String c rest =>
      (PyStr.between 65 90 c && all_in (Re.CRange "a" "z") rest)%bool
  end.

(** The stored name of a session state, when one is stored. *)
Definition stored_name (st : session_state) : option string :=
  match key_user_name st with
  | Some (Some n) => Some n
  | _ => None
  end.

(** The name under the key [user_name], when one is stored, is
    capitalized. *)
Definition name_ok (st : session_state) : Prop :=
  forall n, stored_name st = Some n -> capitalized n = true.

(** The counters of a session state fit its history: every counted
    question has its two messages, and the memory holds at most one
    exchange for each. *)
Definition counters_ok (st : session_state) : Prop :=
  2 * setdefault (key_total_questions st) 0 + 1
  <= List.length (setdefault (key_messages st) [seeded_greeting])
  /\ List.length (setdefault (key_llm st) Memory.empty)
     <= 2 * setdefault (key_total_questions st) 0.

(** The state of a session that has just started at time [now]. *)
Definition initial_session (now : string) : session :=
  mkSession [seeded_greeting] None 0 Memory.empty now.

(** The session state is that of a started session with start time
    [now]. *)
Definition started_at (now : string) (st : session_state) : Prop :=
  exists s, st = stored s /\ session_start_time s = now.

(** The session state a run leaves when it stops for want of an API key. *)
Definition stopped_state : session_state :=
  mkState (Some [seeded_greeting]) (Some None) (Some 0) None None.

(** The replies to a failed call of the client. *)
Definition authentication_error : string :=
  "üîë **Authentication Error**: Invalid API key. Please check your .env file.".

Definition rate_limit_error : string :=
  "‚è±Ô∏è **Rate Limit**: Too many requests. Please wait a moment.".

Definition error_prefix : string :=
  "‚ö†Ô∏è **Error**: ".

(** An optional character as text. *)
Definition optional (o : option ascii) : string :=
  match o with
  | Some c => String c ""
  | None => ""
  end.

(** An optional character lies in a set when it is there. *)
Definition in_opt (k : Re.cls) (o : option ascii) : bool :=
  match o with
  | Some c => Re.in_cls k c
  | None => true
  end.

(** The text starts with a character of the set. *)
Definition starts_in (k : Re.cls) (s : string) : bool :=
  match s with
  | "" => false
  | String c _ => Re.in_cls k c
  end.

(** No character of the text is a letter a-z or A-Z. *)
Fixpoint no_letter (s : string) : bool :=
  match s with
  | "" => true
  | String c s' =>
      (negb (Re.in_cls ChessGuardrails.letter c) && no_letter s')%bool
  end.

(* ------------------------------------------------------------------ *)
(** ** Facts about the string operations *)

Section StringFacts.
Import PyStr.

(** A claim about every character is settled on the 256 of them. *)
Ltac each_char c := destruct c as [[] [] [] [] [] [] [] []]; reflexivity.

Lemma isspace_lower_char (c : ascii) : isspace (lower_char c) = isspace c.
Proof. each_char c. Qed.

Lemma lower_char_idem (c : ascii) : lower_char (lower_char c) = lower_char c.
Proof. each_char c. Qed.

Lemma lower_app (a b : string) : lower (a ++ b) = lower a ++ lower b.
Proof.
  induction a as [|c a IH]; simpl; [reflexivity | now rewrite IH].
Qed.

Lemma lower_idem (s : string) : lower (lower s) = lower s.
Proof.
  induction s as [|c s IH]; simpl; [reflexivity|].
  now rewrite lower_char_idem, IH.
Qed.

Lemma lstrip_lower (s : string) : lstrip (lower s) = lower (lstrip s).
Proof.
  induction s as [|c s IH]; simpl; [reflexivity|].
  rewrite isspace_lower_char.
  destruct (isspace c); [exact IH | reflexivity].
Qed.

Lemma rstrip_lower (s : string) : rstrip (lower s) = lower (rstrip s).
Proof.
  induction s as [|c s IH]; simpl; [reflexivity|].
  rewrite IH, isspace_lower_char.
  destruct (rstrip s); simpl; [|reflexivity].
  destruct (isspace c); reflexivity.
Qed.

(** Trimming and lower-casing commute. *)
Lemma strip_lower (s : string) : strip (lower s) = lower (strip s).
Proof. unfold strip. now rewrite lstrip_lower, rstrip_lower. Qed.

Lemma mem_In (x : string) (l : list string) : mem x l = true <-> In x l.
Proof.
  unfold mem. rewrite existsb_exists. split.
  - intros [y [Hy E]]. apply String.eqb_eq in E. now subst.
  - intros H. exists x. split; [exact H | apply String.eqb_refl].
Qed.

Lemma mem_not_In (x : string) (l : list string) :
  mem x l = false <-> ~ In x l.
Proof.
  rewrite <- mem_In. destruct (mem x l); split; intros; congruence.
Qed.

Lemma startswith_app (p s : string) : startswith p (p ++ s) = true.
Proof.
  induction p as [|c p IH]; simpl; [reflexivity|].
  now rewrite Ascii.eqb_refl, IH.
Qed.

Lemma isin_startswith (k s : string) :
  startswith k s = true -> isin k s = true.
Proof.
  intros H. destruct s; simpl; now rewrite H.
Qed.

(** A text contains each of its pieces. *)
Lemma isin_app (k pre post : string) : isin k (pre ++ k ++ post) = true.
Proof.
  induction pre as [|c pre IH]; simpl.
  - apply isin_startswith, startswith_app.
  - rewrite IH. now destruct (startswith k (String c (pre ++ k ++ post))).
Qed.

Lemma startswith_inv (p s : string) :
  startswith p s = true -> exists post, s = p ++ post.
Proof.
  revert s. induction p as [|c p IH]; intros s H; simpl in *.
  - now exists s.
  - destruct s as [|d s]; [discriminate|].
    apply andb_true_iff in H. destruct H as [E H].
    apply Ascii.eqb_eq in E. subst d.
    destruct (IH _ H) as [post ->]. now exists post.
Qed.

Lemma isin_inv (k s : string) :
  isin k s = true -> exists pre post, s = pre ++ k ++ post.
Proof.
  induction s as [|c s IH]; simpl.
  - destruct k; [|discriminate]. intros _. now exists "", "".
  - destruct (startswith k (String c s)) eqn:E.
    + intros _. destruct (startswith_inv _ _ E) as [post ->].
      now exists "", post.
    + intros H. destruct (IH H) as [pre [post ->]].
      now exists (String c pre), post.
Qed.

Lemma append_assoc (a b c : string) : (a ++ b) ++ c = a ++ b ++ c.
Proof.
  induction a as [|x a IH]; simpl; [reflexivity | now rewrite IH].
Qed.

Lemma append_nil_r (a : string) : a ++ "" = a.
Proof.
  induction a as [|x a IH]; simpl; [reflexivity | now rewrite IH].
Qed.

End StringFacts.

(* ------------------------------------------------------------------ *)
(** ** The greeting detector *)

Section GreetingDetector.
Import PyStr PersonalizationHelper.

(** The detector trims and lower-cases in either order. *)
Lemma is_greeting_normal_form (text : string) :
  is_greeting text = mem (lower (strip text)) simple_greetings.
Proof. unfold is_greeting. now rewrite strip_lower. Qed.

End GreetingDetector.

(** C3.  A text that, trimmed and lower-cased, is one of the fixed greeting
    phrases is a greeting.  A text that merely contains a greeting phrase
    as a proper substring, without being one after trimming and
    lower-casing, is not a greeting; "hi there, how are you" is such a
    text. *)
Theorem is_greeting_exact_match :
  forall text : string,
    (In (PyStr.lower (PyStr.strip text)) PersonalizationHelper.simple_greetings ->
     PersonalizationHelper.is_greeting text = true)
    /\ (forall g pre post : string,
           In g PersonalizationHelper.simple_greetings ->
           text = pre ++ g ++ post ->
           pre <> "" \/ post <> "" ->
           ~ In (PyStr.lower (PyStr.strip text))
                PersonalizationHelper.simple_greetings ->
           PersonalizationHelper.is_greeting text = false)
    /\ PersonalizationHelper.is_greeting "hi there, how are you" = false.
Proof.
  intros text. split; [|split].
  - intros H. rewrite is_greeting_normal_form. now apply mem_In.
  - intros g pre post _ _ _ H. rewrite is_greeting_normal_form.
    now apply mem_not_In.
  - reflexivity.
Qed.

Lemma is_greeting_exact_match_witness :
  PersonalizationHelper.is_greeting "  Good Morning " = true
  /\ PersonalizationHelper.is_greeting "say hi, how are you" = false.
Proof.
  split.
  - apply (proj1 (is_greeting_exact_match "  Good Morning ")).
    apply mem_In. reflexivity.
  - apply (proj1 (proj2 (is_greeting_exact_match "say hi, how are you"))
             "hi" "say " ", how are you").
    + apply mem_In. reflexivity.
    + reflexivity.
    + left. discriminate.
    + apply mem_not_In. reflexivity.
Defined.

(* ------------------------------------------------------------------ *)
(** ** The guardrail classifier *)

Section Guardrail.
Import PyStr Re ChessGuardrails.
Local Open Scope re_scope.

Lemma keyword_accepted (text k : string) :
  In k CHESS_KEYWORDS -> isin k (lower text) = true ->
  is_chess_related text = true.
Proof.
  intros Hk Hin. unfold is_chess_related.
  destruct (existsb _ greeting_patterns); [reflexivity|].
  replace (existsb (fun keyword => isin keyword (lower text)) CHESS_KEYWORDS)
    with true; [reflexivity|].
  symmetry. apply existsb_exists. now exists k.
Qed.

Lemma leading_greeting_found (g rest : string) :
  In g (words leading_greetings) ->
  found (Bol <.> Group leading_greetings) (g ++ rest) = true.
Proof.
  simpl. intros H.
  repeat (destruct H as [<- | H]; [reflexivity|]).
  contradiction.
Qed.

Lemma leading_greeting_accepted (text g rest : string) :
  In g (words leading_greetings) -> lower text = g ++ rest ->
  is_chess_related text = true.
Proof.
  intros Hg E. unfold is_chess_related. rewrite E.
  replace (existsb (fun pattern => found pattern (g ++ rest)) greeting_patterns)
    with true; [reflexivity|].
  symmetry. apply existsb_exists.
  exists (Bol <.> Group leading_greetings). split.
  - left. reflexivity.
  - now apply leading_greeting_found.
Qed.

End Guardrail.

(** C4.  A text is chess-related whenever it contains a word of the keyword
    vocabulary up to letter case, and whenever it begins with one of the
    greeting words up to letter case, whatever follows. *)
Theorem is_chess_related_keyword_or_greeting :
  forall text : string,
    (forall k pre mid post : string,
        In k ChessGuardrails.CHESS_KEYWORDS ->
        text = pre ++ mid ++ post -> PyStr.lower mid = k ->
        ChessGuardrails.is_chess_related text = true)
    /\ (forall g w rest : string,
           In g (words ChessGuardrails.leading_greetings) ->
           text = w ++ rest -> PyStr.lower w = g ->
           ChessGuardrails.is_chess_related text = true).
Proof.
  intros text. split.
  - intros k pre mid post Hk -> E. apply (keyword_accepted _ k Hk).
    rewrite !lower_app, E. apply isin_app.
  - intros g w rest Hg -> E.
    apply (leading_greeting_accepted _ g (PyStr.lower rest) Hg).
    now rewrite lower_app, E.
Qed.

Lemma is_chess_related_keyword_or_greeting_witness :
  ChessGuardrails.is_chess_related "What is a Sicilian Defense?" = true
  /\ ChessGuardrails.is_chess_related "Hello, what is the weather?" = true.
Proof.
  split.
  - apply (proj1 (is_chess_related_keyword_or_greeting
                    "What is a Sicilian Defense?")
             "defense" "What is a Sicilian " "Defense" "?").
    + apply mem_In. reflexivity.
    + reflexivity.
    + reflexivity.
  - apply (proj2 (is_chess_related_keyword_or_greeting
                    "Hello, what is the weather?")
             "hello" "Hello" ", what is the weather?").
    + apply mem_In. reflexivity.
    + reflexivity.
    + reflexivity.
Defined.

Lemma is_chess_related_steps (text : string) :
  ChessGuardrails.is_chess_related text
  = (greeting_step text || keyword_step text || notation_step text)%bool.
Proof.
  unfold ChessGuardrails.is_chess_related, greeting_step, keyword_step,
    notation_step.
  destruct (existsb _ ChessGuardrails.greeting_patterns); [reflexivity|].
  destruct (existsb _ ChessGuardrails.CHESS_KEYWORDS); [reflexivity|].
  destruct (existsb _ ChessGuardrails.patterns); reflexivity.
Qed.

(** Lower-cased text has no capital letter, and the piece-move and
    castling patterns start with one. *)
Section NotationCase.
Import PyStr Re ChessGuardrails.

Lemma no_capital_lower (t : string) : no_capital (lower t) = true.
Proof.
  induction t as [|c t IH]; simpl; [reflexivity|]. rewrite IH.
  now destruct c as [[] [] [] [] [] [] [] []].
Qed.

Lemma piece_letter_capital (a : ascii) :
  has_lower a = false -> one_of "KQRBN" a = false.
Proof.
  destruct a as [[] [] [] [] [] [] [] []]; intros H;
    try reflexivity; discriminate H.
Qed.

Lemma castle_letter_capital (a : ascii) :
  has_lower a = false -> Ascii.eqb "O" a = false.
Proof.
  destruct a as [[] [] [] [] [] [] [] []]; intros H;
    try reflexivity; discriminate H.
Qed.

Lemma piece_move_needs_capital (c : cursor) :
  no_capital (ahead c) = true -> match_at piece_move c = None.
Proof.
  intros H. unfold match_at, piece_move. cbn [run].
  destruct (xorb _ _); [|reflexivity].
  destruct (ahead c) as [|a s']; [reflexivity|].
  simpl in H. apply andb_true_iff in H. destruct H as [Ha _].
  apply negb_true_iff in Ha. cbn [in_cls].
  now rewrite (piece_letter_capital a Ha).
Qed.

Lemma castling_needs_capital (c : cursor) :
  no_capital (ahead c) = true -> match_at castling c = None.
Proof.
  intros H. unfold match_at, castling. cbn [run].
  destruct (xorb _ _); [|reflexivity].
  cbn [eat]. destruct (ahead c) as [|a s']; [reflexivity|].
  simpl in H. apply andb_true_iff in H. destruct H as [Ha _].
  apply negb_true_iff in Ha.
  now rewrite (castle_letter_capital a Ha).
Qed.

Lemma search_needs_capital (p : regex) :
  (forall c, no_capital (ahead c) = true -> match_at p c = None) ->
  forall (s : string) (n : nat) (b : option ascii),
    no_capital s = true -> search_from p n b s = None.
Proof.
  intros Hp. induction s as [|a s IH]; intros n b H; simpl.
  - now rewrite (Hp (mkCursor n b "") H).
  - rewrite (Hp (mkCursor n b (String a s)) H).
    simpl in H. apply andb_true_iff in H. destruct H as [_ H].
    now apply IH.
Qed.

(** On lower-cased text only the square pattern can match. *)
Lemma notation_step_lower (text : string) :
  notation_step (lower text) = found square (lower text).
Proof.
  assert (Hp : found piece_move (lower text) = false).
  { unfold found, search.
    now rewrite (search_needs_capital piece_move piece_move_needs_capital)
      by apply no_capital_lower. }
  assert (Hc : found castling (lower text) = false).
  { unfold found, search.
    now rewrite (search_needs_capital castling castling_needs_capital)
      by apply no_capital_lower. }
  unfold notation_step, patterns. cbn [existsb].
  now rewrite Hp, Hc, !orb_false_r.
Qed.

Lemma greeting_step_lower (text : string) :
  greeting_step (lower text) = greeting_step text.
Proof. unfold greeting_step. now rewrite lower_idem. Qed.

Lemma keyword_step_lower (text : string) :
  keyword_step (lower text) = keyword_step text.
Proof. unfold keyword_step. now rewrite lower_idem. Qed.

End NotationCase.

(** C10 as stated fails on the lower-cased form: "B4" has no greeting or
    introduction pattern and no keyword and is chess-related as a piece
    move, and its lower-cased form "b4" is chess-related too, as a square;
    so is the lower-cased form of "Nf3 e5". *)
Lemma lowercased_notation_can_be_accepted :
  greeting_step "B4" = false /\ keyword_step "B4" = false
  /\ Re.found ChessGuardrails.piece_move "B4" = true
  /\ ChessGuardrails.is_chess_related "B4" = true
  /\ PyStr.lower "B4" = "b4"
  /\ ChessGuardrails.is_chess_related "b4" = true
  /\ greeting_step "Nf3 e5" = false /\ keyword_step "Nf3 e5" = false
  /\ ChessGuardrails.is_chess_related "Nf3 e5" = true
  /\ ChessGuardrails.is_chess_related (PyStr.lower "Nf3 e5") = true.
Proof.
  repeat split; vm_compute; reflexivity.
Qed.

(** C10, amended.  The notation step reads the original text and tells
    letter case apart.  On every text with no greeting or introduction
    pattern and no keyword: a text with piece-move or castling notation,
    which need a capital letter, is chess-related; its lower-cased form is
    rejected when it holds no square (a file a-h and a rank 1-8 as a word
    of its own) and chess-related when it holds one, since on lower-cased
    text the piece-move and castling patterns never match.  So "Nf3" and
    "O-O" are chess-related and their lower-cased forms "nf3" and "o-o"
    are rejected. *)
Theorem notation_step_case_sensitive :
  (forall text : string,
      greeting_step text = false -> keyword_step text = false ->
      ChessGuardrails.is_chess_related text = notation_step text
      /\ (Re.found ChessGuardrails.piece_move text = true
          \/ Re.found ChessGuardrails.castling text = true ->
          ChessGuardrails.is_chess_related text = true)
      /\ ChessGuardrails.is_chess_related (PyStr.lower text)
         = Re.found ChessGuardrails.square (PyStr.lower text)
      /\ (Re.found ChessGuardrails.square (PyStr.lower text) = false ->
          ChessGuardrails.is_chess_related (PyStr.lower text) = false)
      /\ (Re.found ChessGuardrails.square (PyStr.lower text) = true ->
          ChessGuardrails.is_chess_related (PyStr.lower text) = true))
  /\ (greeting_step "Nf3" = false /\ keyword_step "Nf3" = false
      /\ Re.found ChessGuardrails.piece_move "Nf3" = true
      /\ ChessGuardrails.is_chess_related "Nf3" = true
      /\ PyStr.lower "Nf3" = "nf3"
      /\ notation_step (PyStr.lower "Nf3") = false
      /\ ChessGuardrails.is_chess_related "nf3" = false)
  /\ (greeting_step "O-O" = false /\ keyword_step "O-O" = false
      /\ Re.found ChessGuardrails.castling "O-O" = true
      /\ ChessGuardrails.is_chess_related "O-O" = true
      /\ PyStr.lower "O-O" = "o-o"
      /\ notation_step (PyStr.lower "O-O") = false
      /\ ChessGuardrails.is_chess_related "o-o" = false).
Proof.
  split; [|split].
  - intros text Hg Hk.
    assert (E : ChessGuardrails.is_chess_related text = notation_step text).
    { rewrite is_chess_related_steps, Hg, Hk. reflexivity. }
    assert (L : ChessGuardrails.is_chess_related (PyStr.lower text)
                = Re.found ChessGuardrails.square (PyStr.lower text)).
    { rewrite is_chess_related_steps, greeting_step_lower,
        keyword_step_lower, Hg, Hk.
      apply notation_step_lower. }
    split; [exact E|]. split; [|split; [exact L|split]].
    + intros H. rewrite E. unfold notation_step, ChessGuardrails.patterns.
      cbn [existsb].
      destruct H as [H | H]; rewrite H; now rewrite ?orb_true_r.
    + intros H. now rewrite L.
    + intros H. now rewrite L.
  - repeat split; vm_compute; reflexivity.
  - repeat split; vm_compute; reflexivity.
Qed.

Lemma notation_step_case_sensitive_witness :
  ChessGuardrails.is_chess_related "play Qd4 now" = true
  /\ ChessGuardrails.is_chess_related (PyStr.lower "play Qd4 now") = false.
Proof.
  destruct (proj1 notation_step_case_sensitive "play Qd4 now"
              eq_refl eq_refl) as (_ & Hup & _ & Hlow & _).
  split.
  - apply Hup. left. reflexivity.
  - apply Hlow. reflexivity.
Defined.

(* ------------------------------------------------------------------ *)
(** ** The name extractor *)

Section NameExtractor.
Import PyStr Re PersonalizationHelper.

Lemma extract_from_sound (ps : list regex) (t name : string) :
  extract_from ps t = Some name ->
  exists p m,
    In p ps /\ search p t = Some m
    /\ name = capitalize (group1 t m)
    /\ mem (lower name) excluded = false.
Proof.
  induction ps as [|p ps IH]; cbn [extract_from In]; [discriminate|].
  intros H.
  assert (Hrest : extract_from ps t = Some name ->
                  exists p' m, (p = p' \/ In p' ps) /\ search p' t = Some m
                               /\ name = capitalize (group1 t m)
                               /\ mem (lower name) excluded = false).
  { intros H'. destruct (IH H') as [p' [m [Hin Hm]]].
    exists p', m. split; [now right | exact Hm]. }
  destruct (search p t) as [m|] eqn:Hs; [|now apply Hrest].
  cbv zeta in H.
  destruct (mem (lower (capitalize (group1 t m))) excluded) eqn:Hx;
    cbn [negb] in H; [now apply Hrest|].
  injection H as <-. exists p, m. repeat split; auto.
Qed.

(** The words of the exclusion set are in lower case. *)
Lemma excluded_lower (name : string) :
  In name excluded -> lower name = name.
Proof.
  simpl. intros H.
  repeat (destruct H as [<- | H]; [reflexivity|]).
  contradiction.
Qed.

End NameExtractor.

(* ------------------------------------------------------------------ *)
(** ** What the patterns of the name extractor capture *)

Section Captures.
Import PyStr Re.

Lemma append_length (a b : string) :
  String.length (a ++ b) = String.length a + String.length b.
Proof.
  induction a as [|x a IH]; simpl; [reflexivity | now rewrite IH].
Qed.

Lemma substring_middle (pre tok post : string) :
  substring (String.length pre) (String.length tok) (pre ++ tok ++ post) = tok.
Proof.
  induction pre as [|x pre IH]; simpl; [|exact IH].
  revert post. induction tok as [|y tok IH]; intros post; simpl.
  - now destruct post.
  - now rewrite IH.
Qed.

Lemma plus_from_inv {A : Type} (k : cls) (s : string) :
  forall (n : nat) (g : mark) (cont : cursor -> mark -> option A) (x : A),
    plus_from k n s g cont = Some x ->
    exists tok rest last,
      s = tok ++ rest /\ tok <> "" /\ all_in k tok = true
      /\ cont (mkCursor (n + String.length tok) (Some last) rest) g = Some x.
Proof.
  induction s as [|a s IH]; intros n g cont x H; simpl in H; [discriminate|].
  destruct (in_cls k a) eqn:Ha; [|discriminate].
  destruct (plus_from k (S n) s g cont) as [y|] eqn:Hp.
  - injection H as <-.
    destruct (IH _ _ _ _ Hp) as (tok & rest & last & -> & _ & Hall & Hc).
    exists (String a tok), rest, last. repeat split.
    + discriminate.
    + simpl. now rewrite Ha, Hall.
    + simpl. now rewrite Nat.add_succ_r.
  - exists (String a ""), s, a. repeat split.
    + discriminate.
    + simpl. now rewrite Ha.
    + simpl. now rewrite Nat.add_1_r.
Qed.

Lemma eat_at_text (t p : string) :
  forall c c', eat p c = Some c' -> at_text t c -> at_text t c'.
Proof.
  induction p as [|a p IH]; intros c c' H Hc; simpl in H.
  - now injection H as <-.
  - destruct (ahead c) as [|b s'] eqn:Ea; [discriminate|].
    destruct (Ascii.eqb a b); [|discriminate].
    apply (IH _ _ H). destruct Hc as [pre [Ht Hl]].
    exists (pre ++ String b ""). cbn [ahead pos]. split.
    + rewrite Ht, Ea, append_assoc. reflexivity.
    + rewrite append_length, Hl. simpl. apply Nat.add_1_r.
Qed.

Lemma step_at_text (t : string) (c : cursor) (a : ascii) (s' : string) :
  ahead c = String a s' -> at_text t c ->
  at_text t (mkCursor (S (pos c)) (Some a) s').
Proof.
  intros Ea [pre [Ht Hl]]. exists (pre ++ String a ""). cbn [ahead pos]. split.
  - rewrite Ht, Ea, append_assoc. reflexivity.
  - rewrite append_length, Hl. simpl. apply Nat.add_1_r.
Qed.

(** The matcher on a pattern whose groups capture letters: the cursor
    stays on the text, a mark stays a span of letters, and a mark once
    set stays set. *)
Lemma run_captures {A : Type} (t : string) (r : regex) :
  captures_letters r ->
  forall (c : cursor) (g : mark) (cont : cursor -> mark -> option A) (x : A),
    at_text t c -> mark_ok t g ->
    run r c g cont = Some x ->
    exists c' g',
      at_text t c' /\ mark_ok t g'
      /\ (sets_mark r = true -> g' <> None)
      /\ (g <> None -> g' <> None)
      /\ cont c' g' = Some x.
Proof.
  induction r as [s| k | | | r1 IH1 r2 IH2 | r1 IH1 r2 IH2 | r1 IH1 | k | r1 IH1];
    intros W c g cont x Hc Hg H; cbn [run] in H.
  - destruct (eat s c) as [c'|] eqn:E; [|discriminate].
    exists c', g. repeat split; auto; try discriminate.
    now apply (eat_at_text t s c).
  - destruct (ahead c) as [|a s'] eqn:Ea; [discriminate|].
    destruct (in_cls k a); [|discriminate].
    exists (mkCursor (S (pos c)) (Some a) s'), g.
    split; [now apply step_at_text|].
    repeat split; auto; discriminate.
  - destruct (before c); [discriminate|].
    exists c, g. repeat split; auto; discriminate.
  - destruct (xorb _ _); [|discriminate].
    exists c, g. repeat split; auto; discriminate.
  - destruct W as [W1 W2].
    destruct (IH1 W1 _ _ _ _ Hc Hg H) as (c1 & g1 & Hc1 & Hg1 & S1 & P1 & H1).
    destruct (IH2 W2 _ _ _ _ Hc1 Hg1 H1) as (c2 & g2 & Hc2 & Hg2 & S2 & P2 & H2).
    exists c2, g2. repeat split; auto.
    cbn [sets_mark]. intros Hs. apply orb_true_iff in Hs.
    destruct Hs as [Hs|Hs]; auto.
  - destruct W as [W1 W2].
    destruct (run r1 c g cont) as [y|] eqn:E1.
    + injection H as <-.
      destruct (IH1 W1 _ _ _ _ Hc Hg E1) as (c1 & g1 & Hc1 & Hg1 & S1 & P1 & H1).
      exists c1, g1. repeat split; auto.
      cbn [sets_mark]. intros Hs. apply andb_true_iff in Hs. tauto.
    + destruct (IH2 W2 _ _ _ _ Hc Hg H) as (c2 & g2 & Hc2 & Hg2 & S2 & P2 & H2).
      exists c2, g2. repeat split; auto.
      cbn [sets_mark]. intros Hs. apply andb_true_iff in Hs. tauto.
  - destruct (run r1 c g cont) as [y|] eqn:E1.
    + injection H as <-.
      destruct (IH1 W _ _ _ _ Hc Hg E1) as (c1 & g1 & Hc1 & Hg1 & S1 & P1 & H1).
      exists c1, g1. repeat split; auto. discriminate.
    + exists c, g. repeat split; auto. discriminate.
  - destruct (plus_from_inv _ _ _ _ _ _ H)
      as (tok & rest & last & Ea & _ & _ & Hk).
    destruct Hc as [pre [Ht Hl]].
    exists (mkCursor (pos c + String.length tok) (Some last) rest), g.
    split; [|repeat split; auto; discriminate].
    exists (pre ++ tok). cbn [ahead pos]. split.
    + now rewrite Ht, Ea, append_assoc.
    + rewrite append_length. now rewrite Hl.
  - destruct r1; cbn [captures_letters] in W; try contradiction. subst k.
    cbn [run] in H.
    destruct (plus_from_inv _ _ _ _ _ _ H)
      as (tok & rest & last & Ea & Hne & Hall & Hk).
    destruct Hc as [pre [Ht Hl]]. cbn [pos] in Hk.
    exists (mkCursor (pos c + String.length tok) (Some last) rest),
      (Some (pos c, pos c + String.length tok)).
    split; [|split; [|split; [|split; [|exact Hk]]]].
    + exists (pre ++ tok). cbn [ahead pos]. split.
      * now rewrite Ht, Ea, append_assoc.
      * rewrite append_length. now rewrite Hl.
    + exists pre, tok, rest.
      split; [now rewrite Ht, Ea|]. split; [exact Hl|].
      split; [reflexivity|]. split; assumption.
    + discriminate.
    + discriminate.
Qed.

Lemma match_at_captures (t : string) (r : regex) :
  captures_letters r -> sets_mark r = true ->
  forall (c : cursor) (m : match_obj),
    at_text t c -> match_at r c = Some m ->
    exists tok, tok <> "" /\ all_in ChessGuardrails.letter tok = true
                /\ group1 t m = tok.
Proof.
  intros W Hset c m Hc E. unfold match_at in E.
  destruct (run_captures t r W c None _ m Hc I E)
    as (c' & g' & _ & Hg & Hs & _ & Hm).
  injection Hm as <-. unfold group1. cbn [m_group1].
  destruct g' as [[x y]|]; [|now specialize (Hs Hset)].
  destruct Hg as (pre & tok & post & Ht & Hl & Hb & Hne & Hall).
  exists tok. repeat split; auto. subst x y t.
  replace (String.length pre + String.length tok - String.length pre)
    with (String.length tok) by lia.
  apply substring_middle.
Qed.

Lemma search_from_captures (t : string) (r : regex) :
  captures_letters r -> sets_mark r = true ->
  forall (s : string) (n : nat) (b : option ascii) (m : match_obj),
    at_text t (mkCursor n b s) ->
    search_from r n b s = Some m ->
    exists tok, tok <> "" /\ all_in ChessGuardrails.letter tok = true
                /\ group1 t m = tok.
Proof.
  intros W Hset. induction s as [|a s IH]; intros n b m Hc H; simpl in H.
  - destruct (match_at r (mkCursor n b "")) as [m'|] eqn:E; [|discriminate].
    injection H as <-. exact (match_at_captures t r W Hset _ _ Hc E).
  - destruct (match_at r (mkCursor n b (String a s))) as [m'|] eqn:E.
    + injection H as <-. exact (match_at_captures t r W Hset _ _ Hc E).
    + apply (IH _ _ _ (step_at_text t (mkCursor n b (String a s)) a s
                                    eq_refl Hc) H).
Qed.

(** Every pattern of the name extractor captures a non-empty run of
    letters in its group 1. *)
Lemma patterns_capture_letters (p : regex) (t : string) (m : match_obj) :
  In p PersonalizationHelper.patterns -> search p t = Some m ->
  exists tok, tok <> "" /\ all_in ChessGuardrails.letter tok = true
              /\ group1 t m = tok.
Proof.
  intros Hp Hs.
  assert (W : captures_letters p /\ sets_mark p = true).
  { simpl in Hp. repeat (destruct Hp as [<- | Hp]; [now repeat split|]).
    contradiction. }
  destruct W as [W Hset].
  apply (search_from_captures t p W Hset t 0 None m); [|exact Hs].
  now exists "".
Qed.

(** On a run of letters [capitalize] is upper case first, lower case
    after: the result is not empty and its first character is a capital
    letter. *)
Lemma capitalize_letters (tok : string) :
  tok <> "" -> all_in ChessGuardrails.letter tok = true ->
  exists c rest,
    capitalize tok = String c rest
    /\ between 65 90 c = true
    /\ String.length (capitalize tok) = String.length tok.
Proof.
  destruct tok as [|a tok]; [contradiction|]. intros _ H.
  simpl in H. apply andb_true_iff in H. destruct H as [Ha _].
  assert (E : exists c, title_char a = String c "" /\ between 65 90 c = true).
  { revert Ha. destruct a as [[] [] [] [] [] [] [] []]; intros Ha;
      try discriminate Ha; eexists; split; reflexivity. }
  destruct E as (c & Ec & Hc).
  exists c, (lower tok). unfold capitalize. rewrite Ec. simpl.
  repeat split; auto. f_equal. clear. induction tok; simpl; auto.
Qed.

(** A name the extractor returns is the capitalized form of a non-empty
    run of letters. *)
Lemma extract_name_token (text name : string) :
  PersonalizationHelper.extract_name text = Some name ->
  exists tok,
    tok <> "" /\ all_in ChessGuardrails.letter tok = true
    /\ name = capitalize tok /\ name <> "".
Proof.
  intros H. destruct (extract_from_sound _ _ _ H) as (p & m & Hp & Hs & Hn & _).
  destruct (patterns_capture_letters p _ m Hp Hs) as (tok & Hne & Hall & Hg).
  exists tok. rewrite Hg in Hn. repeat split; auto.
  destruct (capitalize_letters tok Hne Hall) as (c & rest & E & _).
  rewrite Hn, E. discriminate.
Qed.

End Captures.

(** C5.  The three examples of the name extractor, and what it returns in
    general: the capitalized first group of a match of one of its
    patterns, a non-empty run of letters, and never a word of the
    exclusion set.  In "I'm learning chess" the captured token is
    "learning", a word of the exclusion set. *)
Theorem extract_name_examples_and_exclusion :
  PersonalizationHelper.extract_name "I'm Magnus" = Some "Magnus"
  /\ PersonalizationHelper.extract_name "I'm learning chess" = None
  /\ (exists p m,
         In p PersonalizationHelper.patterns
         /\ Re.search p (PyStr.lower "I'm learning chess") = Some m
         /\ Re.group1 (PyStr.lower "I'm learning chess") m = "learning"
         /\ In "learning" PersonalizationHelper.excluded)
  /\ PersonalizationHelper.excluded
     = ["chess"; "here"; "there"; "player"; "learning"]
  /\ PersonalizationHelper.extract_name "what is a fork" = None
  /\ (forall text name : string,
         PersonalizationHelper.extract_name text = Some name ->
         exists p m,
           In p PersonalizationHelper.patterns
           /\ Re.search p (PyStr.lower text) = Some m
           /\ name = PyStr.capitalize (Re.group1 (PyStr.lower text) m)
           /\ Re.group1 (PyStr.lower text) m <> ""
           /\ all_in ChessGuardrails.letter (Re.group1 (PyStr.lower text) m)
              = true
           /\ ~ In (PyStr.lower name) PersonalizationHelper.excluded
           /\ ~ In name PersonalizationHelper.excluded).
Proof.
  split; [reflexivity|]. split; [reflexivity|]. split.
  { eexists. eexists. split; [left; reflexivity|].
    split; [vm_compute; reflexivity|].
    split; [reflexivity | apply mem_In; reflexivity]. }
  split; [reflexivity|]. split; [reflexivity|].
  intros text name H.
  destruct (extract_from_sound _ _ _ H) as [p [m [Hp [Hm [Hn Hx]]]]].
  destruct (patterns_capture_letters p _ m Hp Hm) as (tok & Hne & Hall & Hg).
  exists p, m. repeat split; auto.
  - now rewrite Hg.
  - now rewrite Hg.
  - now apply mem_not_In.
  - intros Hin. apply mem_not_In in Hx. apply Hx.
    now rewrite (excluded_lower _ Hin).
Qed.

Lemma extract_name_examples_and_exclusion_witness :
  exists p m,
    In p PersonalizationHelper.patterns
    /\ Re.search p (PyStr.lower "Call me Ishmael") = Some m
    /\ "Ishmael" = PyStr.capitalize (Re.group1 (PyStr.lower "Call me Ishmael") m)
    /\ Re.group1 (PyStr.lower "Call me Ishmael") m <> ""
    /\ all_in ChessGuardrails.letter
              (Re.group1 (PyStr.lower "Call me Ishmael") m) = true
    /\ ~ In (PyStr.lower "Ishmael") PersonalizationHelper.excluded
    /\ ~ In "Ishmael" PersonalizationHelper.excluded.
Proof.
  apply (proj2 (proj2 (proj2 (proj2 (proj2
           extract_name_examples_and_exclusion))))
           "Call me Ishmael" "Ishmael").
  reflexivity.
Defined.

(* ------------------------------------------------------------------ *)
(** ** The turn of the orchestrator *)

Section Turn.
Import PyStr.

Lemma remember_name_frame (user_input : string) (s : session) :
  messages (remember_name user_input s) = messages s
  /\ total_questions (remember_name user_input s) = total_questions s
  /\ memory (remember_name user_input s) = memory s
  /\ session_start_time (remember_name user_input s) = session_start_time s.
Proof.
  unfold remember_name.
  destruct (nonempty (user_name s)); [auto|].
  destruct (nonempty (PersonalizationHelper.extract_name user_input)); auto.
Qed.

Lemma dispatch_llm (user_input : string) :
  dispatch user_input = LLMBranch <->
  PersonalizationHelper.is_greeting user_input = false
  /\ ChessGuardrails.is_chess_related user_input = true.
Proof.
  unfold dispatch.
  destruct (PersonalizationHelper.is_greeting user_input);
    destruct (ChessGuardrails.is_chess_related user_input); simpl;
    split; intros H; try discriminate; try (destruct H; discriminate); auto.
Qed.

(** The language-model branch in full. *)
Lemma handle_input_llm (llm : llm_client) (s : session) (user_input : string) :
  dispatch user_input = LLMBranch ->
  let s2 := remember_name user_input (append_message user user_input s) in
  let o := llm (prompt_for s2 user_input) in
  handle_input llm s user_input
  = (mkSession
       (messages s ++ [mkMessage user user_input;
                       mkMessage assistant (reply_of o)])
       (user_name s2) (total_questions s + 1)
       (match o with
        | Returned response =>
            Memory.save_context user_input response (memory s)
        | Raised _ => memory s
        end)
       (session_start_time s),
     [prompt_for s2 user_input]).
Proof.
  intros H. apply dispatch_llm in H. destruct H as [Hg Hc].
  unfold handle_input, generate_response, prompt_for.
  rewrite Hg, Hc. cbn [negb].
  destruct (remember_name_frame user_input
              (append_message user user_input s)) as (Hm & Hq & Hb & Ht).
  destruct (llm _); cbn [append_message messages user_name total_questions
                          memory session_start_time reply_of];
    rewrite Hm, Hq, ?Hb, Ht; cbn [append_message messages total_questions
                                   memory session_start_time];
    rewrite <- app_assoc; reflexivity.
Qed.

(** The greeting and the rejection branch in full. *)
Lemma handle_input_canned (llm : llm_client) (s : session)
      (user_input : string) :
  PersonalizationHelper.is_greeting user_input = true
  \/ ChessGuardrails.is_chess_related user_input = false ->
  let s2 := remember_name user_input (append_message user user_input s) in
  handle_input llm s user_input
  = (mkSession
       (messages s ++ [mkMessage user user_input;
                       mkMessage assistant
                         (if PersonalizationHelper.is_greeting user_input
                          then PersonalizationHelper.get_greeting_response
                                 (user_name s2)
                          else ChessGuardrails.get_rejection_message)])
       (user_name s2) (total_questions s) (memory s)
       (session_start_time s),
     []).
Proof.
  intros H. unfold handle_input.
  destruct (remember_name_frame user_input
              (append_message user user_input s)) as (Hm & Hq & Hb & Ht).
  destruct (PersonalizationHelper.is_greeting user_input) eqn:Hg.
  - unfold append_message at 1. rewrite Hm, Hq, Hb, Ht.
    cbn [append_message messages total_questions memory session_start_time].
    rewrite <- app_assoc. reflexivity.
  - destruct H as [H|H]; [discriminate|]. rewrite H. cbn [negb].
    unfold append_message at 1. rewrite Hm, Hq, Hb, Ht.
    cbn [append_message messages total_questions memory session_start_time].
    rewrite <- app_assoc. reflexivity.
Qed.

Lemma handle_input_appends (llm : llm_client) (s : session)
      (user_input : string) :
  exists reply,
    messages (fst (handle_input llm s user_input))
    = (messages s ++ [mkMessage user user_input;
                      mkMessage assistant reply])%list.
Proof.
  destruct (dispatch user_input) eqn:D.
  - assert (H : PersonalizationHelper.is_greeting user_input = true).
    { unfold dispatch in D.
      destruct (PersonalizationHelper.is_greeting user_input);
        [reflexivity|].
      destruct (negb _); discriminate. }
    rewrite (handle_input_canned llm s user_input (or_introl H)).
    eexists. reflexivity.
  - assert (H : ChessGuardrails.is_chess_related user_input = false).
    { unfold dispatch in D.
      destruct (PersonalizationHelper.is_greeting user_input);
        [discriminate|].
      destruct (ChessGuardrails.is_chess_related user_input);
        [discriminate | reflexivity]. }
    rewrite (handle_input_canned llm s user_input (or_intror H)).
    eexists. reflexivity.
  - rewrite (handle_input_llm llm s user_input D).
    eexists. reflexivity.
Qed.

End Turn.

(** C1 as stated fails on the exception path: with a client that raises,
    a chess question still moves the question count from 0 to 1. *)
Lemma question_count_incremented_on_exception :
  let q := "What is a Sicilian Defense?" in
  let s2 := remember_name q (append_message user q fresh_session) in
  dispatch q = LLMBranch
  /\ failing_client (prompt_for s2 q) = Raised "Rate limit reached for requests"
  /\ total_questions fresh_session = 0
  /\ total_questions (fst (handle_input failing_client fresh_session q)) = 1
  /\ total_questions (fst (handle_input failing_client fresh_session q))
     <> total_questions fresh_session.
Proof.
  vm_compute. repeat split. discriminate.
Qed.

(** C1, amended.  On every input that reaches the language-model branch
    the client is called once and the question count goes up by exactly
    one, whether the call returns or raises.  The assistant message is the
    trimmed completion when the call returns and the classified error
    message when it raises. *)
Theorem question_count_on_llm_branch :
  forall (llm : llm_client) (s : session) (user_input : string),
    dispatch user_input = LLMBranch ->
    let s2 := remember_name user_input (append_message user user_input s) in
    let prompt := prompt_for s2 user_input in
    let s' := fst (handle_input llm s user_input) in
    snd (handle_input llm s user_input) = [prompt]
    /\ total_questions s' = total_questions s + 1
    /\ messages s'
       = (messages s ++ [mkMessage user user_input;
                         mkMessage assistant (reply_of (llm prompt))])%list
    /\ (forall response, llm prompt = Returned response ->
                         reply_of (llm prompt) = PyStr.strip response)
    /\ (forall e, llm prompt = Raised e ->
                  reply_of (llm prompt) = error_reply e).
Proof.
  intros llm s user_input D s2 prompt s'. subst s'.
  rewrite (handle_input_llm llm s user_input D). cbn [fst snd messages
    total_questions]. fold s2. fold prompt.
  repeat split; intros x Hx; rewrite Hx; reflexivity.
Qed.

Lemma question_count_on_llm_branch_witness :
  total_questions
    (fst (handle_input answering_client fresh_session
                       "What is a Sicilian Defense?"))
  = total_questions fresh_session + 1.
Proof.
  apply (question_count_on_llm_branch answering_client fresh_session
           "What is a Sicilian Defense?").
  reflexivity.
Defined.

(** C2 as stated fails: the guardrail accepts "My name is Alice" through
    its introduction pattern, so the reply is the model's answer and not
    the rejection text. *)
Lemma introduction_reaches_language_model :
  let q := "My name is Alice" in
  keyword_step q = false
  /\ ChessGuardrails.is_chess_related q = true
  /\ dispatch q = LLMBranch
  /\ messages (fst (handle_input answering_client fresh_session q))
     = [seeded_greeting; mkMessage user q;
        mkMessage assistant "Nice to meet you! Ask me about any opening."]
  /\ "Nice to meet you! Ask me about any opening."
     <> ChessGuardrails.get_rejection_message
  /\ length (snd (handle_input answering_client fresh_session q)) = 1.
Proof.
  vm_compute. repeat split. discriminate.
Qed.

Lemma extract_name_alice :
  PersonalizationHelper.extract_name "My name is Alice" = Some "Alice".
Proof. reflexivity. Qed.

(** C2, amended.  For "My name is Alice" in a session with no stored
    name: the extractor stores "Alice"; the input is not a bare greeting
    and contains no chess keyword, but the guardrail accepts it as a
    self-introduction, so the turn takes the language-model branch: the
    client is called once with a prompt that carries the name, the reply
    is the trimmed completion or the error message, and the name "Alice"
    is stored afterwards. *)
Theorem introduction_stores_name_and_is_answered :
  forall (llm : llm_client) (s : session),
    user_name s = None ->
    let q := "My name is Alice" in
    let s2 := set_user_name (Some "Alice") (append_message user q s) in
    let s' := fst (handle_input llm s q) in
    PersonalizationHelper.extract_name q = Some "Alice"
    /\ PersonalizationHelper.is_greeting q = false
    /\ keyword_step q = false
    /\ greeting_step q = true
    /\ ChessGuardrails.is_chess_related q = true
    /\ dispatch q = LLMBranch
    /\ snd (handle_input llm s q) = [prompt_for s2 q]
    /\ messages s'
       = (messages s ++ [mkMessage user q;
                         mkMessage assistant (reply_of (llm (prompt_for s2 q)))])%list
    /\ user_name s' = Some "Alice".
Proof.
  intros llm s Hn q s2 s'.
  assert (D : dispatch q = LLMBranch) by reflexivity.
  assert (E : remember_name q (append_message user q s) = s2).
  { unfold remember_name. cbn [append_message user_name]. rewrite Hn.
    cbn [PyStr.nonempty]. unfold q. rewrite extract_name_alice. reflexivity. }
  subst s'. rewrite (handle_input_llm llm s q D). rewrite E.
  cbn [fst snd messages user_name].
  repeat split; vm_compute; reflexivity.
Qed.

Lemma introduction_stores_name_and_is_answered_witness :
  user_name (fst (handle_input answering_client fresh_session
                               "My name is Alice"))
  = Some "Alice".
Proof.
  apply (introduction_stores_name_and_is_answered
           answering_client fresh_session).
  reflexivity.
Defined.

(** C7.  An input taken by the greeting branch or by the rejection branch
    calls the client not at all and leaves the question count as it was;
    the turn is the same whatever the client would do. *)
Theorem canned_branches_leave_count_and_client :
  forall (llm : llm_client) (s : session) (user_input : string),
    PersonalizationHelper.is_greeting user_input = true
    \/ ChessGuardrails.is_chess_related user_input = false ->
    snd (handle_input llm s user_input) = []
    /\ total_questions (fst (handle_input llm s user_input))
       = total_questions s
    /\ memory (fst (handle_input llm s user_input)) = memory s
    /\ (forall llm' : llm_client,
           handle_input llm' s user_input = handle_input llm s user_input).
Proof.
  intros llm s user_input H.
  rewrite (handle_input_canned llm s user_input H).
  repeat split. intros llm'.
  now rewrite (handle_input_canned llm' s user_input H).
Qed.

Lemma canned_branches_leave_count_and_client_witness :
  snd (handle_input failing_client fresh_session "Hello") = []
  /\ total_questions
       (fst (handle_input failing_client fresh_session
                          "What is the weather today?"))
     = total_questions fresh_session.
Proof.
  split.
  - apply (canned_branches_leave_count_and_client
             failing_client fresh_session "Hello").
    left. reflexivity.
  - apply (canned_branches_leave_count_and_client
             failing_client fresh_session "What is the weather today?").
    right. reflexivity.
Defined.

(* ------------------------------------------------------------------ *)
(** ** Session reset *)

Lemma initialize_stored (key : option string) (now : string) (s : session) :
  initialize_session_state key now (stored s) = Ready s.
Proof. destruct s. reflexivity. Qed.

(** C6.  The reset is defined on every session; after it the history is
    the seeded greeting alone, no name is stored, the question count is 0
    and the context window is empty; a second reset changes nothing.  The
    same holds for a run of the script on the clear-chat button. *)
Theorem clear_chat_resets_and_is_idempotent :
  forall s : session,
    messages (clear_chat s) = [seeded_greeting]
    /\ length (messages (clear_chat s)) = 1
    /\ user_name (clear_chat s) = None
    /\ total_questions (clear_chat s) = 0
    /\ memory (clear_chat s) = Memory.empty
    /\ Memory.window Config.MEMORY_K (memory (clear_chat s)) = []
    /\ clear_chat (clear_chat s) = clear_chat s
    /\ (forall (key : option string) (now : string) (llm : llm_client),
           main key now llm (stored s) ClearChat = (stored (clear_chat s), []))
    /\ (forall (key key' : option string) (now now' : string)
               (llm llm' : llm_client),
           fst (main key' now' llm'
                     (fst (main key now llm (stored s) ClearChat)) ClearChat)
           = fst (main key now llm (stored s) ClearChat)).
Proof.
  intros s.
  assert (Hmain : forall key now llm,
             main key now llm (stored s) ClearChat
             = (stored (clear_chat s), [])).
  { intros key now llm. unfold main. now rewrite initialize_stored. }
  split; [reflexivity|]. split; [reflexivity|]. split; [reflexivity|].
  split; [reflexivity|]. split; [reflexivity|]. split; [reflexivity|].
  split; [reflexivity|]. split; [exact Hmain|].
  intros key key' now now' llm llm'. rewrite Hmain. cbn [fst].
  unfold main. now rewrite initialize_stored.
Qed.

(* ------------------------------------------------------------------ *)
(** ** Session export *)

Lemma export_loop_blocks (msgs : list message) :
  forall (idx : nat) (history_text : string),
    export_loop idx msgs history_text
    = history_text ++ numbered_blocks idx msgs.
Proof.
  induction msgs as [|msg rest IH]; intros idx history_text; simpl.
  - now rewrite append_nil_r.
  - rewrite IH. unfold transcript_block. now rewrite append_assoc.
Qed.

(** C8.  The exported transcript is the header block, with the start time
    of the session, the stored name or "Anonymous" when none is stored,
    the question count and the export time, followed by one numbered
    block with role and content for every stored message, in the order of
    the history. *)
Theorem export_is_header_then_numbered_blocks :
  forall (now : string) (s : session),
  exists who : string,
    (user_name s = None -> who = "Anonymous")
    /\ (forall name, user_name s = Some name -> name <> "" -> who = name)
    /\ export_conversation_history now s
       = nl ++ "# Chess Q&A Chatbot - Conversation History" ++ nl
         ++ "# Session Started: " ++ session_start_time s ++ nl
         ++ "# User: " ++ who ++ nl
         ++ "# Total Questions: " ++ PyStr.str_of_nat (total_questions s) ++ nl
         ++ "# Export Time: " ++ now ++ nl
         ++ nl
         ++ "============================================================"
         ++ nl ++ nl
         ++ numbered_blocks 1 (messages s).
Proof.
  intros now s. exists (PyStr.or_else (user_name s) "Anonymous").
  split; [|split].
  - intros H. now rewrite H.
  - intros name H Hne. rewrite H. unfold PyStr.or_else, PyStr.nonempty.
    destruct name; [contradiction | reflexivity].
  - unfold export_conversation_history. rewrite export_loop_blocks.
    unfold export_header.
    change (PyStr.repeat_char "=" 60)
      with "============================================================".
    now rewrite !append_assoc.
Qed.

Lemma export_is_header_then_numbered_blocks_witness :
  exists who : string,
    who = "Anonymous"
    /\ export_conversation_history "2024-05-01 10:00:00" fresh_session
       = nl ++ "# Chess Q&A Chatbot - Conversation History" ++ nl
         ++ "# Session Started: 2024-05-01 09:30:00" ++ nl
         ++ "# User: " ++ who ++ nl
         ++ "# Total Questions: 0" ++ nl
         ++ "# Export Time: 2024-05-01 10:00:00" ++ nl
         ++ nl
         ++ "============================================================"
         ++ nl ++ nl
         ++ "1. [ASSISTANT]" ++ nl ++ Config.GREETING_MESSAGE ++ nl ++ nl.
Proof.
  destruct (export_is_header_then_numbered_blocks
              "2024-05-01 10:00:00" fresh_session) as [who [H [_ E]]].
  exists who. split.
  - apply H. reflexivity.
  - rewrite E, (H eq_refl). reflexivity.
Defined.

(* ------------------------------------------------------------------ *)
(** ** The shape of the history *)

Section History.
Local Open Scope list_scope.

Lemma turns_app (a b : list message) :
  turns a -> turns b -> turns (a ++ b).
Proof.
  intros Ha Hb. induction Ha as [|input reply rest _ IH]; simpl.
  - exact Hb.
  - now constructor.
Qed.

Lemma turns_even (l : list message) : turns l -> Nat.Even (length l).
Proof.
  induction 1 as [|input reply rest _ [n IH]]; simpl.
  - now exists 0.
  - exists (S n). lia.
Qed.

Lemma history_odd (msgs : list message) :
  history msgs -> Nat.Odd (length msgs).
Proof.
  intros [rest [-> Hr]]. destruct (turns_even _ Hr) as [n Hn].
  exists n. simpl. lia.
Qed.

Lemma history_seed : history [seeded_greeting].
Proof. exists []. split; [reflexivity | constructor]. Qed.

Lemma history_turn (msgs : list message) (input reply : string) :
  history msgs ->
  history (msgs ++ [mkMessage user input; mkMessage assistant reply]).
Proof.
  intros [rest [-> Hr]].
  exists (rest ++ [mkMessage user input; mkMessage assistant reply]).
  split; [reflexivity|].
  apply turns_app; [exact Hr | repeat constructor].
Qed.

Lemma main_history (key : option string) (now : string) (llm : llm_client)
      (st : session_state) (ev : event) :
  keeps_history st ->
  exists msgs,
    key_messages (fst (main key now llm st ev)) = Some msgs
    /\ history msgs.
Proof.
  intros Hst.
  assert (H0 : history (setdefault (key_messages st) [seeded_greeting])).
  { destruct (key_messages st) as [m|] eqn:E; simpl.
    - now apply Hst.
    - apply history_seed. }
  unfold main, initialize_session_state.
  destruct (match key_llm st with
            | Some mem => Some mem
            | None => initialize_langchain key
            end) as [mem|].
  - destruct ev as [| |user_input]; cbn [fst stored key_messages messages].
    + eexists. split; [reflexivity | exact H0].
    + eexists. split; [reflexivity | apply history_seed].
    + destruct (PyStr.truthy user_input).
      * match goal with
        | |- context [handle_input llm ?s user_input] =>
            destruct (handle_input_appends llm s user_input) as [reply E];
            destruct (handle_input llm s user_input) as [s' sent]
        end.
        cbn [fst stored key_messages messages] in *.
        eexists. split; [reflexivity|]. rewrite E.
        now apply history_turn.
      * eexists. split; [reflexivity | exact H0].
  - eexists. split; [reflexivity | exact H0].
Qed.

Lemma runs_history (key : option string)
      (script : list (string * llm_client * event)) :
  forall (st : session_state) (msgs : list message),
    key_messages st = Some msgs -> history msgs ->
    exists msgs',
      key_messages (runs key script st) = Some msgs' /\ history msgs'.
Proof.
  induction script as [|[[now llm] ev] script IH]; intros st msgs E H; simpl.
  - now exists msgs.
  - destruct (main_history key now llm st ev) as [m [Em Hm]].
    + intros m' E'. rewrite E in E'. now injection E' as <-.
    + exact (IH _ _ Em Hm).
Qed.

End History.

(** C9.  The history starts as the seeded greeting alone.  Every processed
    input appends the user message and then one assistant message,
    whichever branch handles it and whether or not the client raises.
    Hence after any sequence of runs of the script the history is the
    seeded greeting followed by alternating user and assistant messages,
    and its length is odd. *)
Theorem history_seed_then_turns :
  (forall (key : option string) (now : string),
      match initialize_session_state key now no_keys with
      | Ready s => messages s = [seeded_greeting]
      | Stopped st => key_messages st = Some [seeded_greeting]
      end)
  /\ (forall (llm : llm_client) (s : session) (user_input : string),
         exists reply : string,
           messages (fst (handle_input llm s user_input))
           = (messages s ++ [mkMessage user user_input;
                             mkMessage assistant reply])%list)
  /\ (forall (key : option string) (first : string * llm_client * event)
             (script : list (string * llm_client * event)),
         exists msgs : list message,
           key_messages (runs key (first :: script) no_keys) = Some msgs
           /\ history msgs
           /\ Nat.Odd (length msgs)).
Proof.
  split; [|split].
  - intros key now. unfold initialize_session_state. simpl.
    destruct (initialize_langchain key); reflexivity.
  - exact handle_input_appends.
  - intros key [[now llm] ev] script. simpl.
    destruct (main_history key now llm no_keys ev) as [m [Em Hm]].
    + intros m' E'. discriminate.
    + destruct (runs_history key script _ _ Em Hm) as [msgs [E H]].
      exists msgs. repeat split; auto. now apply history_odd.
Qed.


(* ------------------------------------------------------------------ *)
(** ** Runs of the script, case by case *)

Section Runs.
Import PyStr.
Local Open Scope list_scope.

(** What a turn does, whichever branch takes it. *)
Lemma handle_input_result (llm : llm_client) (s : session)
      (user_input : string) :
  let s2 := remember_name user_input (append_message user user_input s) in
  exists (reply : string) (count : nat) (mem : Memory.buffer) (sent : calls),
    handle_input llm s user_input
    = (mkSession (messages s ++ [mkMessage user user_input;
                                 mkMessage assistant reply])
                 (user_name s2) count mem (session_start_time s),
       sent)
    /\ ((sent = [] /\ count = total_questions s /\ mem = memory s)
        \/ (sent = [prompt_for s2 user_input]
            /\ count = total_questions s + 1
            /\ (mem = memory s
                \/ exists response,
                      mem = Memory.save_context user_input response
                                                (memory s)))).
Proof.
  intros s2.
  destruct (dispatch user_input) eqn:D.
  - assert (H : PersonalizationHelper.is_greeting user_input = true).
    { unfold dispatch in D.
      destruct (PersonalizationHelper.is_greeting user_input); [reflexivity|].
      destruct (negb _); discriminate. }
    rewrite (handle_input_canned llm s user_input (or_introl H)).
    do 4 eexists. split; [reflexivity|]. left. auto.
  - assert (H : ChessGuardrails.is_chess_related user_input = false).
    { unfold dispatch in D.
      destruct (PersonalizationHelper.is_greeting user_input); [discriminate|].
      destruct (ChessGuardrails.is_chess_related user_input);
        [discriminate | reflexivity]. }
    rewrite (handle_input_canned llm s user_input (or_intror H)).
    do 4 eexists. split; [reflexivity|]. left. auto.
  - rewrite (handle_input_llm llm s user_input D). fold s2.
    do 4 eexists. split; [reflexivity|]. right.
    split; [reflexivity|]. split; [reflexivity|].
    destruct (llm (prompt_for s2 user_input)); [right; eauto | left; auto].
Qed.

(** The cases of a run of [main]. *)
Lemma main_cases (key : option string) (now : string) (llm : llm_client)
      (st : session_state) (ev : event) :
  (exists st', initialize_session_state key now st = Stopped st'
               /\ main key now llm st ev = (st', []))
  \/ (exists s, initialize_session_state key now st = Ready s
                /\ (main key now llm st ev = (stored s, [])
                    \/ (ev = ClearChat
                        /\ main key now llm st ev = (stored (clear_chat s), []))
                    \/ (exists user_input,
                           ev = ChatInput user_input /\ user_input <> ""
                           /\ main key now llm st ev
                              = (stored (fst (handle_input llm s user_input)),
                                 snd (handle_input llm s user_input))))).
Proof.
  unfold main.
  destruct (initialize_session_state key now st) as [st'|s].
  - left. now exists st'.
  - right. exists s. split; [reflexivity|].
    destruct ev as [| |user_input].
    + left. reflexivity.
    + right. left. auto.
    + destruct user_input as [|c rest]; cbn [truthy].
      * left. reflexivity.
      * right. right. exists (String c rest).
        split; [reflexivity|]. split; [discriminate|].
        now destruct (handle_input llm s (String c rest)).
Qed.

(** A property of session states that every run keeps holds after any
    sequence of runs. *)
Lemma runs_preserve (P : session_state -> Prop) (key : option string) :
  (forall now llm st ev, P st -> P (fst (main key now llm st ev))) ->
  forall script st, P st -> P (runs key script st).
Proof.
  intros Hmain. induction script as [|[[now llm] ev] script IH];
    intros st H; simpl; [exact H|].
  apply IH, Hmain, H.
Qed.

(** What start-up gives, key by key. *)
Lemma initialize_ready (key : option string) (now : string)
      (st : session_state) (s : session) :
  initialize_session_state key now st = Ready s ->
  messages s = setdefault (key_messages st) [seeded_greeting]
  /\ user_name s = setdefault (key_user_name st) None
  /\ total_questions s = setdefault (key_total_questions st) 0
  /\ session_start_time s = setdefault (key_session_start_time st) now
  /\ (key_llm st = Some (memory s)
      \/ (key_llm st = None /\ memory s = Memory.empty
          /\ nonempty key <> None)).
Proof.
  unfold initialize_session_state, initialize_langchain.
  destruct (key_llm st) as [mem|].
  - intros H. injection H as <-. cbn. auto 10.
  - destruct (nonempty key) eqn:K; [|discriminate].
    intros H. injection H as <-. cbn.
    repeat split; auto. right. repeat split; auto. discriminate.
Qed.

Lemma initialize_stopped (key : option string) (now : string)
      (st st' : session_state) :
  initialize_session_state key now st = Stopped st' ->
  key_llm st = None /\ nonempty key = None
  /\ st' = mkState (Some (setdefault (key_messages st) [seeded_greeting]))
                   (Some (setdefault (key_user_name st) None))
                   (Some (setdefault (key_total_questions st) 0))
                   None (key_session_start_time st).
Proof.
  unfold initialize_session_state, initialize_langchain.
  destruct (key_llm st) as [mem|]; [discriminate|].
  destruct (nonempty key); [discriminate|].
  intros H. now injection H as <-.
Qed.

End Runs.

(* ------------------------------------------------------------------ *)
(** ** The stored name *)

Section StoredName.
Import PyStr Re.
Local Open Scope list_scope.

Lemma title_of_letter (a : ascii) :
  in_cls ChessGuardrails.letter a = true ->
  exists c, title_char a = String c "" /\ between 65 90 c = true.
Proof.
  destruct a as [[] [] [] [] [] [] [] []]; intros H;
    try discriminate H; eexists; split; reflexivity.
Qed.

Lemma lower_of_letter (a : ascii) :
  in_cls ChessGuardrails.letter a = true ->
  in_cls (CRange "a" "z") (lower_char a) = true.
Proof.
  destruct a as [[] [] [] [] [] [] [] []]; intros H;
    try discriminate H; reflexivity.
Qed.

Lemma lower_of_letters (tok : string) :
  all_in ChessGuardrails.letter tok = true ->
  all_in (CRange "a" "z") (lower tok) = true.
Proof.
  induction tok as [|a tok IH]; simpl; [reflexivity|].
  intros H. apply andb_true_iff in H. destruct H as [Ha Ht].
  apply andb_true_iff. split; [|now apply IH].
  exact (lower_of_letter a Ha).
Qed.

Lemma capitalize_capitalized (tok : string) :
  tok <> "" -> all_in ChessGuardrails.letter tok = true ->
  capitalized (capitalize tok) = true.
Proof.
  destruct tok as [|a tok]; [contradiction|]. intros _ H.
  simpl in H. apply andb_true_iff in H. destruct H as [Ha Ht].
  destruct (title_of_letter a Ha) as (c & Ec & Hc).
  unfold capitalize. rewrite Ec. cbn [append capitalized].
  now rewrite Hc, (lower_of_letters tok Ht).
Qed.

Lemma capitalized_nonempty (n : string) :
  capitalized n = true -> nonempty (Some n) = Some n.
Proof. destruct n; [discriminate | reflexivity]. Qed.

Lemma extract_name_shape (text name : string) :
  PersonalizationHelper.extract_name text = Some name ->
  capitalized name = true.
Proof.
  intros H.
  destruct (extract_from_sound _ _ _ H) as (p & m & Hp & Hs & Hn & _).
  destruct (patterns_capture_letters p _ m Hp Hs) as (tok & Hne & Hall & Hg).
  rewrite Hn, Hg. now apply capitalize_capitalized.
Qed.

End StoredName.

(** X1.  A name the extractor returns is a capital letter followed by
    small letters, whatever the letter case of the introduction. *)
Theorem extract_name_is_capitalized :
  forall text name : string,
    PersonalizationHelper.extract_name text = Some name ->
    capitalized name = true.
Proof.
  intros text name H. exact (extract_name_shape text name H).
Qed.

Lemma extract_name_is_capitalized_witness :
  PersonalizationHelper.extract_name "hey, i'm mAGNUS carlsen" = Some "Magnus"
  /\ capitalized "Magnus" = true.
Proof.
  split; [reflexivity|].
  apply (extract_name_is_capitalized "hey, i'm mAGNUS carlsen" "Magnus").
  reflexivity.
Defined.

(** X2.  A stored name is never replaced by a later input: the turn keeps
    it whatever the input says, and a greeting is answered with it. *)
Theorem stored_name_is_kept :
  forall (llm : llm_client) (s : session) (user_input n : string),
    user_name s = Some n -> n <> "" ->
    user_name (fst (handle_input llm s user_input)) = Some n
    /\ (PersonalizationHelper.is_greeting user_input = true ->
        messages (fst (handle_input llm s user_input))
        = (messages s
             ++ [mkMessage user user_input;
                 mkMessage assistant
                   (PersonalizationHelper.get_greeting_response (Some n))])%list).
Proof.
  intros llm s user_input n Hn Hne.
  assert (E : remember_name user_input (append_message user user_input s)
              = append_message user user_input s).
  { unfold remember_name. cbn [append_message user_name]. rewrite Hn.
    destruct n; [contradiction | reflexivity]. }
  split.
  - destruct (handle_input_result llm s user_input)
      as (reply & count & mem & sent & H & _).
    rewrite H, E. cbn [fst user_name append_message]. exact Hn.
  - intros Hg. rewrite (handle_input_canned llm s user_input (or_introl Hg)).
    rewrite E, Hg. cbn [fst messages user_name append_message].
    now rewrite Hn.
Qed.

Lemma stored_name_is_kept_witness :
  user_name
    (fst (handle_input answering_client
            (mkSession [seeded_greeting] (Some "Alice") 0 Memory.empty
                       "2024-05-01 09:30:00")
            "call me Bob"))
  = Some "Alice".
Proof.
  apply (stored_name_is_kept answering_client
           (mkSession [seeded_greeting] (Some "Alice") 0 Memory.empty
                      "2024-05-01 09:30:00")
           "call me Bob" "Alice"); [reflexivity | discriminate].
Defined.

Section StoredNameInvariant.
Import PyStr.

Lemma remember_name_ok (user_input : string) (s : session) :
  (forall n, user_name s = Some n -> capitalized n = true) ->
  forall n, user_name (remember_name user_input s) = Some n ->
            capitalized n = true.
Proof.
  intros H n. unfold remember_name.
  destruct (nonempty (user_name s)); [apply H|].
  destruct (PersonalizationHelper.extract_name user_input) as [name|] eqn:E;
    cbn [nonempty]; [|apply H].
  destruct (truthy name); [|apply H].
  cbn [set_user_name user_name]. intros Hn. injection Hn as <-.
  exact (extract_name_shape _ _ E).
Qed.

Lemma main_name_ok (key : option string) (now : string) (llm : llm_client)
      (st : session_state) (ev : event) :
  name_ok st -> name_ok (fst (main key now llm st ev)).
Proof.
  intros Hst.
  assert (H0 : forall n, setdefault (key_user_name st) None = Some n ->
                         capitalized n = true).
  { intros n Hn. apply Hst. unfold stored_name.
    destruct (key_user_name st) as [[m|]|]; cbn in Hn; try discriminate.
    exact Hn. }
  destruct (main_cases key now llm st ev)
    as [(st' & Hi & ->) | (s & Hi & Hm)]; cbn [fst].
  - destruct (initialize_stopped _ _ _ _ Hi) as (_ & _ & ->).
    intros n. unfold stored_name. cbn [key_user_name].
    destruct (setdefault (key_user_name st) None) eqn:E; [|discriminate].
    intros Hn. injection Hn as <-. now apply H0.
  - destruct (initialize_ready _ _ _ _ Hi) as (_ & Hu & _).
    rewrite <- Hu in H0.
    destruct Hm as [-> | [(_ & ->) | (user_input & _ & _ & ->)]]; cbn [fst];
      intros n; unfold stored_name; cbn [stored key_user_name].
    + destruct (user_name s) eqn:E; [|discriminate].
      intros Hn. injection Hn as <-. now apply H0.
    + cbn [clear_chat user_name]. discriminate.
    + destruct (handle_input_result llm s user_input)
        as (reply & count & mem & sent & H & _).
      rewrite H. cbn [fst user_name].
      destruct (user_name (remember_name _ _)) eqn:E; [|discriminate].
      intros Hn. injection Hn as <-.
      apply (remember_name_ok user_input
               (append_message user user_input s)); [exact H0 | exact E].
Qed.

End StoredNameInvariant.

(** X3.  After any sequence of runs, a stored name is a capital letter
    followed by small letters. *)
Theorem stored_name_is_capitalized :
  forall (key : option string)
         (script : list (string * llm_client * event)) (n : string),
    stored_name (runs key script no_keys) = Some n ->
    capitalized n = true.
Proof.
  intros key script.
  apply (runs_preserve name_ok key (main_name_ok key) script no_keys).
  intros n H. discriminate.
Qed.

Lemma stored_name_is_capitalized_witness :
  stored_name
    (runs (Some "gsk-key")
          [("2024-05-01 09:30:00", answering_client,
            ChatInput "this is aLiCe, what is a fork?")]
          no_keys)
  = Some "Alice"
  /\ capitalized "Alice" = true.
Proof.
  split; [reflexivity|].
  apply (stored_name_is_capitalized (Some "gsk-key")
           [("2024-05-01 09:30:00", answering_client,
             ChatInput "this is aLiCe, what is a fork?")] "Alice").
  reflexivity.
Defined.

(* ------------------------------------------------------------------ *)
(** ** The question counter *)

(** X4.  Every run of the script calls the client at most once, and a
    click on the clear-chat button calls it not at all; on every other run
    the question count goes up by the number of calls. *)
Theorem count_goes_up_with_calls :
  forall (key : option string) (now : string) (llm : llm_client)
         (st : session_state) (ev : event),
    List.length (snd (main key now llm st ev)) <= 1
    /\ (ev = ClearChat -> snd (main key now llm st ev) = [])
    /\ (ev <> ClearChat ->
        setdefault (key_total_questions (fst (main key now llm st ev))) 0
        = setdefault (key_total_questions st) 0
          + List.length (snd (main key now llm st ev))).
Proof.
  intros key now llm st ev.
  destruct (main_cases key now llm st ev)
    as [(st' & Hi & ->) | (s & Hi & Hm)]; cbn [fst snd List.length].
  - destruct (initialize_stopped _ _ _ _ Hi) as (_ & _ & ->).
    cbn [key_total_questions setdefault].
    split; [lia|]. split; [reflexivity | lia].
  - destruct (initialize_ready _ _ _ _ Hi) as (_ & _ & Hq & _).
    rewrite <- Hq.
    destruct Hm as [-> | [(Hc & ->) | (user_input & -> & _ & ->)]];
      cbn [fst snd List.length stored key_total_questions setdefault].
    + split; [lia|]. split; [reflexivity | lia].
    + split; [lia|]. split; [reflexivity | contradiction].
    + destruct (handle_input_result llm s user_input)
        as (reply & count & mem & sent & H & Hs).
      rewrite H. cbn [fst snd total_questions].
      destruct Hs as [(-> & -> & _) | (-> & -> & _)]; cbn [List.length];
        (split; [lia|]); (split; [discriminate | lia]).
Qed.

Lemma count_goes_up_with_calls_witness :
  snd (main (Some "gsk-key") "2024-05-01 09:31:00" failing_client
            (stored fresh_session) ClearChat) = []
  /\ setdefault
       (key_total_questions
          (fst (main (Some "gsk-key") "2024-05-01 09:31:00" failing_client
                     (stored fresh_session) (ChatInput "What is a gambit?")))) 0
     = setdefault (key_total_questions (stored fresh_session)) 0
       + List.length
           (snd (main (Some "gsk-key") "2024-05-01 09:31:00" failing_client
                      (stored fresh_session) (ChatInput "What is a gambit?"))).
Proof.
  split.
  - apply (count_goes_up_with_calls (Some "gsk-key") "2024-05-01 09:31:00"
             failing_client (stored fresh_session) ClearChat).
    reflexivity.
  - apply (count_goes_up_with_calls (Some "gsk-key") "2024-05-01 09:31:00"
             failing_client (stored fresh_session)
             (ChatInput "What is a gambit?")).
    discriminate.
Defined.

Section Counters.
Import PyStr.
Local Open Scope list_scope.

Lemma main_counters_ok (key : option string) (now : string)
      (llm : llm_client) (st : session_state) (ev : event) :
  counters_ok st -> counters_ok (fst (main key now llm st ev)).
Proof.
  unfold counters_ok. intros [Hm Hb].
  destruct (main_cases key now llm st ev)
    as [(st' & Hi & ->) | (s & Hi & Hr)]; cbn [fst].
  - destruct (initialize_stopped _ _ _ _ Hi) as (_ & _ & ->).
    cbn [key_total_questions key_messages key_llm setdefault Memory.empty
         List.length]. lia.
  - destruct (initialize_ready _ _ _ _ Hi) as (Em & _ & Eq & _ & Eb).
    rewrite <- Em, <- Eq in *.
    assert (Hb' : List.length (memory s) <= 2 * total_questions s).
    { destruct Eb as [Eb | (_ & Eb & _)].
      - now rewrite Eb in Hb.
      - rewrite Eb. cbn. lia. }
    destruct Hr as [-> | [(_ & ->) | (user_input & _ & _ & ->)]];
      cbn [fst stored key_total_questions key_messages key_llm setdefault].
    + lia.
    + cbn. lia.
    + destruct (handle_input_result llm s user_input)
        as (reply & count & mem & sent & H & Hs).
      rewrite H. cbn [fst messages total_questions memory].
      rewrite length_app. cbn [List.length].
      destruct Hs as [(_ & -> & ->) | (_ & -> & [-> | [response ->]])];
        unfold Memory.save_context; rewrite ?length_app; cbn [List.length];
        lia.
Qed.

Lemma main_sets_keys (key : option string) (now : string)
      (llm : llm_client) (st : session_state) (ev : event) :
  key_messages (fst (main key now llm st ev)) <> None
  /\ key_total_questions (fst (main key now llm st ev)) <> None.
Proof.
  destruct (main_cases key now llm st ev)
    as [(st' & Hi & ->) | (s & Hi & Hr)]; cbn [fst].
  - destruct (initialize_stopped _ _ _ _ Hi) as (_ & _ & ->).
    split; discriminate.
  - destruct Hr as [-> | [(_ & ->) | (user_input & _ & _ & ->)]];
      split; discriminate.
Qed.

End Counters.

(** X5.  After any sequence of runs the counters fit the history: the
    history has the greeting and two messages for every counted question,
    at least, and the conversation memory holds at most one exchange for
    every counted question. *)
Theorem counters_fit_history :
  forall (key : option string) (first : string * llm_client * event)
         (script : list (string * llm_client * event)),
  exists (msgs : list message) (count : nat),
    key_messages (runs key (first :: script) no_keys) = Some msgs
    /\ key_total_questions (runs key (first :: script) no_keys) = Some count
    /\ 2 * count + 1 <= List.length msgs
    /\ List.length (setdefault (key_llm (runs key (first :: script) no_keys))
                               Memory.empty)
       <= 2 * count.
Proof.
  intros key [[now llm] ev] script.
  pose (P := fun st => counters_ok st
                       /\ key_messages st <> None
                       /\ key_total_questions st <> None).
  assert (H : P (runs key ((now, llm, ev) :: script) no_keys)).
  { cbn [runs]. apply (runs_preserve P key).
    - intros now' llm' st ev' (Hc & _). split.
      + now apply main_counters_ok.
      + apply main_sets_keys.
    - split.
      + apply main_counters_ok. unfold counters_ok. cbn. lia.
      + apply main_sets_keys. }
  destruct H as ((Hm & Hb) & Km & Kq).
  destruct (key_messages _) as [msgs|]; [|contradiction].
  destruct (key_total_questions _) as [count|]; [|contradiction].
  exists msgs, count. cbn [setdefault] in *. auto.
Qed.

(* ------------------------------------------------------------------ *)
(** ** Start-up, start time and reset *)

Section StartUp.
Import PyStr.
Local Open Scope list_scope.

Lemma runs_app (key : option string)
      (a b : list (string * llm_client * event)) :
  forall st, runs key (a ++ b) st = runs key b (runs key a st).
Proof.
  induction a as [|[[now llm] ev] a IH]; intros st; simpl; [reflexivity|].
  apply IH.
Qed.

Lemma main_without_key (key : option string) (now : string)
      (llm : llm_client) (st : session_state) (ev : event) :
  nonempty key = None -> st = no_keys \/ st = stopped_state ->
  main key now llm st ev = (stopped_state, []).
Proof.
  intros K [-> | ->]; unfold main, initialize_session_state,
    initialize_langchain; cbn [key_llm no_keys stopped_state];
    rewrite K; reflexivity.
Qed.

Lemma main_started (t : string) (key : option string) (now : string)
      (llm : llm_client) (st : session_state) (ev : event) :
  started_at t st -> started_at t (fst (main key now llm st ev)).
Proof.
  intros (s & -> & Ht). unfold main. rewrite initialize_stored.
  destruct ev as [| |user_input]; cbn [fst].
  - now exists s.
  - exists (clear_chat s). split; [reflexivity | exact Ht].
  - destruct (truthy user_input); [|now exists s].
    destruct (handle_input_result llm s user_input)
      as (reply & count & mem & sent & H & _).
    rewrite H. cbn [fst]. eexists. split; [reflexivity | exact Ht].
Qed.

Lemma first_run_started (key : option string) (k now : string)
      (llm : llm_client) (ev : event) :
  nonempty key = Some k ->
  started_at now (fst (main key now llm no_keys ev)).
Proof.
  intros K.
  assert (E : initialize_session_state key now no_keys
              = Ready (initial_session now)).
  { unfold initialize_session_state, initialize_langchain.
    cbn [key_llm no_keys]. now rewrite K. }
  unfold main. rewrite E.
  destruct ev as [| |user_input]; cbn [fst].
  - now exists (initial_session now).
  - now exists (clear_chat (initial_session now)).
  - destruct (truthy user_input); [|now exists (initial_session now)].
    destruct (handle_input_result llm (initial_session now) user_input)
      as (reply & count & mem & sent & H & _).
    rewrite H. cbn [fst]. eexists. split; reflexivity.
Qed.

End StartUp.

(** X6.  Without an API key (unset or empty) every run stops at start-up:
    the client is never called, no input is handled, and the session state
    stays at the seeded greeting with no name, a count of 0, and neither
    client nor start time. *)
Theorem missing_key_stops_every_run :
  forall key : option string,
    PyStr.nonempty key = None ->
    (forall (now : string) (llm : llm_client) (ev : event),
        main key now llm no_keys ev = (stopped_state, [])
        /\ main key now llm stopped_state ev = (stopped_state, []))
    /\ (forall (first : string * llm_client * event)
               (script : list (string * llm_client * event)),
           runs key (first :: script) no_keys = stopped_state).
Proof.
  intros key K. split.
  - intros now llm ev. split; apply main_without_key; auto.
  - intros [[now llm] ev] script. cbn [runs].
    rewrite (main_without_key key now llm no_keys ev K (or_introl eq_refl)).
    cbn [fst].
    apply (runs_preserve (fun st => st = stopped_state) key); [|reflexivity].
    intros now' llm' st ev' ->.
    now rewrite (main_without_key key now' llm' stopped_state ev' K
                   (or_intror eq_refl)).
Qed.

Lemma missing_key_stops_every_run_witness :
  runs (Some "")
       [("2024-05-01 09:30:00", answering_client, ChatInput "What is a fork?");
        ("2024-05-01 09:31:00", answering_client, ClearChat)]
       no_keys
  = stopped_state.
Proof.
  apply (missing_key_stops_every_run (Some "")). reflexivity.
Defined.

(** X7.  With an API key, the start time of the session is the time of
    the first run and no later run changes it, and the clear-chat button
    brings the session back to exactly the state in which it started. *)
Theorem clear_chat_returns_to_start :
  forall (key : option string) (k now : string) (llm : llm_client)
         (ev : event) (script : list (string * llm_client * event))
         (now' : string) (llm' : llm_client),
    PyStr.nonempty key = Some k ->
    fst (main key now llm no_keys NoInput) = stored (initial_session now)
    /\ key_session_start_time (runs key ((now, llm, ev) :: script) no_keys)
       = Some now
    /\ runs key (((now, llm, ev) :: script) ++ [(now', llm', ClearChat)])
            no_keys
       = stored (initial_session now).
Proof.
  intros key k now llm ev script now' llm' K.
  assert (H : started_at now (runs key ((now, llm, ev) :: script) no_keys)).
  { cbn [runs]. apply (runs_preserve (started_at now) key).
    - intros now1 llm1 st ev1. apply main_started.
    - exact (first_run_started key k now llm ev K). }
  split; [|split].
  - unfold main, initialize_session_state, initialize_langchain.
    cbn [key_llm no_keys]. now rewrite K.
  - destruct H as (s & -> & Ht). cbn [stored key_session_start_time].
    now rewrite Ht.
  - rewrite runs_app. destruct H as (s & -> & Ht). cbn [runs].
    unfold main. rewrite initialize_stored. cbn [fst].
    unfold clear_chat, initial_session. now rewrite Ht.
Qed.

Lemma clear_chat_returns_to_start_witness :
  runs (Some "gsk-key")
       ([("2024-05-01 09:30:00", answering_client,
          ChatInput "I'm Bobby, what is a fork?");
         ("2024-05-01 09:31:00", failing_client, ChatInput "hi")]
          ++ [("2024-05-01 09:32:00", answering_client, ClearChat)])
       no_keys
  = stored (initial_session "2024-05-01 09:30:00").
Proof.
  apply (clear_chat_returns_to_start (Some "gsk-key") "gsk-key"
           "2024-05-01 09:30:00" answering_client
           (ChatInput "I'm Bobby, what is a fork?")
           [("2024-05-01 09:31:00", failing_client, ChatInput "hi")]
           "2024-05-01 09:32:00" answering_client).
  reflexivity.
Defined.

(* ------------------------------------------------------------------ *)
(** ** The prompt and the reply of the language-model branch *)

Section Prompt.
Import PyStr.
Local Open Scope list_scope.

Lemma window_suffix (k : nat) (b : Memory.buffer) :
  exists older,
    b = older ++ Memory.window k b
    /\ List.length (Memory.window k b) <= 2 * k
    /\ (List.length b <= 2 * k -> Memory.window k b = b).
Proof.
  unfold Memory.window. exists (firstn (List.length b - 2 * k) b).
  split; [|split].
  - symmetry. apply firstn_skipn.
  - rewrite length_skipn. lia.
  - intros H. replace (List.length b - 2 * k) with 0 by lia. reflexivity.
Qed.

Lemma lstrip_head (s : string) :
  match lstrip s with
  | "" => True
  | String c _ => isspace c = false
  end.
Proof.
  induction s as [|c s IH]; simpl; [exact I|].
  destruct (isspace c) eqn:E; [exact IH | exact E].
Qed.

Lemma rstrip_head (c : ascii) (s : string) :
  isspace c = false -> exists r, rstrip (String c s) = String c r.
Proof.
  intros H. simpl. destruct (rstrip s).
  - rewrite H. now exists "".
  - eexists. reflexivity.
Qed.

Lemma rstrip_last (s : string) :
  match before_end None (rstrip s) with
  | Some c => isspace c = false
  | None => True
  end.
Proof.
  induction s as [|c s IH]; simpl; [exact I|].
  destruct (rstrip s) as [|d r].
  - destruct (isspace c) eqn:E; simpl; [exact I | exact E].
  - exact IH.
Qed.

Lemma strip_trimmed (s : string) : trimmed (strip s) = true.
Proof.
  unfold strip, trimmed. pose proof (lstrip_head s) as Hh.
  destruct (lstrip s) as [|c x]; [reflexivity|].
  destruct (rstrip_head c x Hh) as [r E].
  pose proof (rstrip_last (String c x)) as Hl. rewrite E in *.
  cbn [Re.next_char]. destruct (before_end None (String c r)); [|reflexivity].
  now rewrite Hh, Hl.
Qed.

Lemma lstrip_spaces (s : string) :
  all_in Re.CSpace s = true -> lstrip s = "".
Proof.
  induction s as [|c s IH]; simpl; [reflexivity|].
  intros H. apply andb_true_iff in H. destruct H as [Hc Hs].
  rewrite Hc. now apply IH.
Qed.

Lemma strip_spaces (s : string) :
  all_in Re.CSpace s = true -> strip s = "".
Proof. intros H. unfold strip. now rewrite (lstrip_spaces s H). Qed.

End Prompt.

(** X8.  The prompt of the language-model branch is the system message,
    made with the name as stored after this input, then the last
    [MEMORY_K] exchanges of the memory at most (all of the memory while it
    is that short), then the input as the human message. *)
Theorem prompt_is_system_window_input :
  forall (llm : llm_client) (s : session) (user_input : string),
    dispatch user_input = LLMBranch ->
    exists (shown older : list chat_message),
      snd (handle_input llm s user_input)
      = [(SystemMessage
            (create_chess_prompt
               (user_name (fst (handle_input llm s user_input))))
            :: shown ++ [HumanMessage user_input])%list]
      /\ memory s = (older ++ shown)%list
      /\ List.length shown <= 2 * Config.MEMORY_K
      /\ (List.length (memory s) <= 2 * Config.MEMORY_K -> shown = memory s).
Proof.
  intros llm s user_input D.
  rewrite (handle_input_llm llm s user_input D). cbn [fst snd user_name].
  destruct (remember_name_frame user_input
              (append_message user user_input s)) as (_ & _ & Hb & _).
  cbn [append_message memory] in Hb.
  destruct (window_suffix Config.MEMORY_K (memory s)) as (older & E & Hl & Hs).
  exists (Memory.window Config.MEMORY_K (memory s)), older.
  split; [|split; [exact E | split; [exact Hl | exact Hs]]].
  unfold prompt_for, format_prompt. now rewrite Hb.
Qed.

Lemma prompt_is_system_window_input_witness :
  exists (shown older : list chat_message),
    snd (handle_input answering_client fresh_session "I'm Ann, what is a pin?")
    = [(SystemMessage
          (create_chess_prompt
             (user_name (fst (handle_input answering_client fresh_session
                                           "I'm Ann, what is a pin?"))))
          :: shown ++ [HumanMessage "I'm Ann, what is a pin?"])%list]
    /\ memory fresh_session = (older ++ shown)%list
    /\ List.length shown <= 2 * Config.MEMORY_K
    /\ (List.length (memory fresh_session) <= 2 * Config.MEMORY_K ->
        shown = memory fresh_session).
Proof.
  apply (prompt_is_system_window_input answering_client fresh_session
           "I'm Ann, what is a pin?").
  reflexivity.
Defined.

(** X9.  When the input handled directly after a click on the clear-chat
    button takes the language-model branch, nothing of the conversation
    before the click reaches the client: the prompt is the system message,
    with a name only if this very input introduces one, and the input. *)
Theorem prompt_after_clear_chat :
  forall (llm : llm_client) (s : session) (user_input : string),
    dispatch user_input = LLMBranch ->
    snd (handle_input llm (clear_chat s) user_input)
    = [[SystemMessage
          (create_chess_prompt (PersonalizationHelper.extract_name user_input));
        HumanMessage user_input]].
Proof.
  intros llm s user_input D.
  rewrite (handle_input_llm llm (clear_chat s) user_input D). cbn [snd].
  unfold prompt_for, format_prompt, remember_name.
  cbn [append_message clear_chat user_name memory PyStr.nonempty].
  destruct (PersonalizationHelper.extract_name user_input) as [name|];
    cbn [PyStr.nonempty]; [|reflexivity].
  destruct name; reflexivity.
Qed.

Lemma prompt_after_clear_chat_witness :
  snd (handle_input answering_client
         (clear_chat
            (mkSession [seeded_greeting] (Some "Alice") 3
                       [HumanMessage "What is a fork?";
                        AIMessage "A double attack."]
                       "2024-05-01 09:30:00"))
         "What is a skewer?")
  = [[SystemMessage system_message; HumanMessage "What is a skewer?"]].
Proof.
  apply (prompt_after_clear_chat answering_client
           (mkSession [seeded_greeting] (Some "Alice") 3
                      [HumanMessage "What is a fork?";
                       AIMessage "A double attack."]
                      "2024-05-01 09:30:00")
           "What is a skewer?").
  reflexivity.
Defined.

(** X10.  When the client returns, the assistant message is its text with
    the white space at both ends removed: it neither starts nor ends with
    white space, and it is empty when the text is white space only. *)
Theorem answer_is_trimmed :
  forall (llm : llm_client) (s : session) (user_input response : string),
    dispatch user_input = LLMBranch ->
    llm (prompt_for (remember_name user_input
                       (append_message user user_input s)) user_input)
    = Returned response ->
    messages (fst (handle_input llm s user_input))
    = (messages s ++ [mkMessage user user_input;
                      mkMessage assistant (PyStr.strip response)])%list
    /\ trimmed (PyStr.strip response) = true
    /\ (all_in Re.CSpace response = true -> PyStr.strip response = "").
Proof.
  intros llm s user_input response D H.
  rewrite (handle_input_llm llm s user_input D). cbn [fst messages].
  rewrite H. cbn [reply_of].
  split; [reflexivity|]. split; [apply strip_trimmed | apply strip_spaces].
Qed.

Lemma answer_is_trimmed_witness :
  messages (fst (handle_input answering_client fresh_session
                              "What is a gambit?"))
  = [seeded_greeting; mkMessage user "What is a gambit?";
     mkMessage assistant "Nice to meet you! Ask me about any opening."]
  /\ trimmed "Nice to meet you! Ask me about any opening." = true.
Proof.
  destruct (answer_is_trimmed answering_client fresh_session
              "What is a gambit?"
              " Nice to meet you! Ask me about any opening. "
              eq_refl eq_refl) as (Hm & Ht & _).
  split; [exact Hm | exact Ht].
Defined.

(* ------------------------------------------------------------------ *)
(** ** Classification of errors *)

(** X11.  The error text is classified without regard to letter case, and
    authentication comes first: a text that mentions "api key" or
    "unauthorized" gives the authentication message even when it also
    mentions "rate limit"; otherwise "rate limit" gives the rate-limit
    message; any other text is echoed as it is after the error prefix. *)
Theorem error_reply_classification :
  forall e : string,
    (forall pre mid post : string,
        e = pre ++ mid ++ post ->
        PyStr.lower mid = "api key" \/ PyStr.lower mid = "unauthorized" ->
        error_reply e = authentication_error)
    /\ (forall pre mid post : string,
           e = pre ++ mid ++ post -> PyStr.lower mid = "rate limit" ->
           PyStr.isin "api key" (PyStr.lower e) = false ->
           PyStr.isin "unauthorized" (PyStr.lower e) = false ->
           error_reply e = rate_limit_error)
    /\ (PyStr.isin "api key" (PyStr.lower e) = false ->
        PyStr.isin "unauthorized" (PyStr.lower e) = false ->
        PyStr.isin "rate limit" (PyStr.lower e) = false ->
        error_reply e = error_prefix ++ e).
Proof.
  intros e. split; [|split].
  - intros pre mid post -> H. unfold error_reply.
    rewrite !lower_app.
    destruct H as [-> | ->]; rewrite isin_app;
      [reflexivity | now rewrite orb_true_r].
  - intros pre mid post E H Ha Hu. unfold error_reply.
    rewrite Ha, Hu. cbn [orb]. rewrite E, !lower_app, H, isin_app.
    reflexivity.
  - intros Ha Hu Hr. unfold error_reply. now rewrite Ha, Hu, Hr.
Qed.

Lemma error_reply_classification_witness :
  error_reply "Error 429: Rate Limit hit; API Key abc is over quota"
  = authentication_error
  /\ error_reply "Error 429: RATE LIMIT reached" = rate_limit_error
  /\ error_reply "Connection reset by peer"
     = error_prefix ++ "Connection reset by peer".
Proof.
  split; [|split].
  - apply (proj1 (error_reply_classification
                    "Error 429: Rate Limit hit; API Key abc is over quota")
             "Error 429: Rate Limit hit; " "API Key" " abc is over quota").
    + reflexivity.
    + left. reflexivity.
  - apply (proj1 (proj2 (error_reply_classification
                           "Error 429: RATE LIMIT reached"))
             "Error 429: " "RATE LIMIT" " reached"); reflexivity.
  - apply (proj2 (proj2 (error_reply_classification
                           "Connection reset by peer"))); reflexivity.
Defined.

Section NotationWords.
Import PyStr Re ChessGuardrails.

Lemma search_from_reaches (r : regex) (s : string) (m : match_obj) :
  forall (pre : string) (n : nat) (b : option ascii),
    match_at r (mkCursor (n + String.length pre) (before_end b pre) s)
    = Some m ->
    exists m', search_from r n b (pre ++ s) = Some m'.
Proof.
  induction pre as [|a pre IH]; intros n b H.
  - cbn [String.length before_end append] in *. rewrite Nat.add_0_r in H.
    exists m. destruct s; cbn [search_from]. all: now rewrite H.
  - cbn [append search_from].
    destruct (match_at r (mkCursor n b (String a (pre ++ s)))) as [m0|];
      [now exists m0|].
    apply IH. cbn [String.length before_end] in H.
    now rewrite Nat.add_succ_r in H.
Qed.

Lemma found_at (r : regex) (pre s : string) (m : match_obj) :
  match_at r (mkCursor (String.length pre) (before_end None pre) s) = Some m ->
  found r (pre ++ s) = true.
Proof.
  intros H. unfold found, search.
  destruct (search_from_reaches r s m pre 0 None H) as [m' ->]. reflexivity.
Qed.

Lemma notation_accepted (p : regex) (text : string) :
  In p patterns -> found p text = true -> is_chess_related text = true.
Proof.
  intros Hp Hf. rewrite is_chess_related_steps.
  replace (notation_step text) with true; [now rewrite !orb_true_r|].
  symmetry. apply existsb_exists. now exists p.
Qed.

Lemma file_is_word (f : ascii) :
  in_cls (CRange "a" "h") f = true -> isword f = true.
Proof.
  destruct f as [[] [] [] [] [] [] [] []]; intros H;
    try discriminate H; reflexivity.
Qed.

Lemma rank_is_word (r : ascii) :
  in_cls (CRange "1" "8") r = true -> isword r = true.
Proof.
  destruct r as [[] [] [] [] [] [] [] []]; intros H;
    try discriminate H; reflexivity.
Qed.

Lemma square_matches (n : nat) (b : option ascii) (f r : ascii)
      (post : string) :
  in_cls (CRange "a" "h") f = true -> in_cls (CRange "1" "8") r = true ->
  word_at b = false -> word_at (next_char post) = false ->
  exists m, match_at square (mkCursor n b (String f (String r post))) = Some m.
Proof.
  intros Hf Hr Hb Hp. unfold match_at, square.
  cbn [run ahead before pos next_char word_at].
  rewrite Hb, Hf, Hr, (file_is_word f Hf), (rank_is_word r Hr), Hp.
  cbn [xorb]. eexists. reflexivity.
Qed.

Lemma piece_is_word (p : ascii) :
  in_cls (COneOf "KQRBN") p = true -> isword p = true.
Proof.
  destruct p as [[] [] [] [] [] [] [] []]; intros H;
    try discriminate H; reflexivity.
Qed.

Lemma not_word_not_file (o : option ascii) :
  word_at o = false ->
  match o with
  | Some a => in_cls (CRange "a" "h") a = false
               /\ in_cls (CRange "1" "8") a = false
  | None => True
  end.
Proof.
  destruct o as [a|]; [|trivial]. cbn [word_at]. intros H.
  split.
  - destruct (in_cls (CRange "a" "h") a) eqn:E; [|reflexivity].
    now rewrite (file_is_word a E) in H.
  - destruct (in_cls (CRange "1" "8") a) eqn:E; [|reflexivity].
    now rewrite (rank_is_word a E) in H.
Qed.

Lemma rank_not_file (r : ascii) :
  in_cls (CRange "1" "8") r = true -> in_cls (CRange "a" "h") r = false.
Proof.
  destruct r as [[] [] [] [] [] [] [] []]; intros H;
    try discriminate H; reflexivity.
Qed.

Lemma piece_move_matches (n : nat) (b : option ascii) (p : ascii)
      (fo ro : option ascii) (post : string) :
  in_cls (COneOf "KQRBN") p = true ->
  in_opt (CRange "a" "h") fo = true -> in_opt (CRange "1" "8") ro = true ->
  word_at b = false -> word_at (next_char post) = false ->
  exists m,
    match_at piece_move
             (mkCursor n b (String p (optional fo ++ optional ro ++ post)))
    = Some m.
Proof.
  intros Hpc Hf Hr Hb Hp. unfold match_at, piece_move.
  pose proof (piece_is_word p Hpc) as Wp.
  pose proof (not_word_not_file _ Hp) as Np.
  destruct fo as [f|], ro as [r|]; cbn [in_opt optional append] in *;
    cbn [run ahead before pos next_char word_at];
    rewrite Hb, Wp, Hpc; cbn [xorb].
  - rewrite Hf, Hr, (rank_is_word r Hr), Hp. cbn [xorb].
    eexists. reflexivity.
  - rewrite Hf, (file_is_word f Hf).
    destruct post as [|a post]; cbn [next_char word_at] in *.
    + eexists. reflexivity.
    + destruct Np as [_ Nr]. rewrite Nr, Hp. eexists. reflexivity.
  - rewrite (rank_not_file r Hr), Hr, (rank_is_word r Hr), Hp. cbn [xorb].
    eexists. reflexivity.
  - destruct post as [|a post]; cbn [next_char word_at] in *.
    + eexists. reflexivity.
    + destruct Np as [Nf Nr]. rewrite Nf, Nr, Hp. eexists. reflexivity.
Qed.

Lemma castling_matches (n : nat) (b : option ascii) (post : string) :
  word_at b = false -> word_at (next_char post) = false ->
  exists m, match_at castling (mkCursor n b ("O-O" ++ post)) = Some m.
Proof.
  intros Hb Hp. unfold match_at, castling.
  cbn [run ahead before pos next_char word_at append].
  assert (E : eat "O-O" (mkCursor n b (String "O" (String "-" (String "O" post))))
              = Some (mkCursor (S (S (S n))) (Some "O"%char) post))
    by reflexivity.
  rewrite E, Hb. change (isword "O") with true. cbn [xorb].
  match goal with
  | |- context [match ?X with Some x => Some x | None => _ end] => destruct X
  end.
  - eexists. reflexivity.
  - cbn [before ahead pos word_at]. rewrite Hp.
    change (isword "O") with true. eexists. reflexivity.
Qed.

End NotationWords.

(** X12.  A text with a square of the board as a word of its own, a file
    a-h and a rank 1-8 with no word character before or after, is
    chess-related whatever else it says. *)
Theorem square_is_accepted :
  forall (pre post : string) (f r : ascii),
    Re.in_cls (Re.CRange "a" "h") f = true ->
    Re.in_cls (Re.CRange "1" "8") r = true ->
    Re.word_at (before_end None pre) = false ->
    Re.word_at (Re.next_char post) = false ->
    ChessGuardrails.is_chess_related (pre ++ String f (String r post)) = true.
Proof.
  intros pre post f r Hf Hr Hb Hp.
  destruct (square_matches (String.length pre) _ f r post Hf Hr Hb Hp)
    as [m Hm].
  apply (notation_accepted ChessGuardrails.square).
  - left. reflexivity.
  - exact (found_at _ _ _ _ Hm).
Qed.

Lemma square_is_accepted_witness :
  ChessGuardrails.is_chess_related "shall we meet at c7?" = true.
Proof.
  apply (square_is_accepted "shall we meet at " "?" "c" "7"); reflexivity.
Defined.

(** X13.  A text with one of the capital letters K, Q, R, B, N as a word
    of its own, alone or followed by a file, a rank or both, is
    chess-related whatever else it says. *)
Theorem piece_letter_is_accepted :
  forall (pre post : string) (p : ascii) (fo ro : option ascii),
    Re.in_cls (Re.COneOf "KQRBN") p = true ->
    in_opt (Re.CRange "a" "h") fo = true ->
    in_opt (Re.CRange "1" "8") ro = true ->
    Re.word_at (before_end None pre) = false ->
    Re.word_at (Re.next_char post) = false ->
    ChessGuardrails.is_chess_related
      (pre ++ String p (optional fo ++ optional ro ++ post)) = true.
Proof.
  intros pre post p fo ro Hpc Hf Hr Hb Hp.
  destruct (piece_move_matches (String.length pre) _ p fo ro post
              Hpc Hf Hr Hb Hp) as [m Hm].
  apply (notation_accepted ChessGuardrails.piece_move).
  - right. left. reflexivity.
  - exact (found_at _ _ _ _ Hm).
Qed.

Lemma piece_letter_is_accepted_witness :
  ChessGuardrails.is_chess_related "Do you offer Vitamin B?" = true
  /\ ChessGuardrails.is_chess_related "then Qd4 wins" = true.
Proof.
  split.
  - apply (piece_letter_is_accepted "Do you offer Vitamin " "?" "B" None None);
      reflexivity.
  - apply (piece_letter_is_accepted "then " " wins" "Q" (Some "d"%char)
             (Some "4"%char)); reflexivity.
Defined.

(** X14.  A text with the castling notation O-O as a word of its own is
    chess-related whatever else it says; so is O-O-O, since the hyphen
    is no word character. *)
Theorem castling_is_accepted :
  forall pre post : string,
    Re.word_at (before_end None pre) = false ->
    Re.word_at (Re.next_char post) = false ->
    ChessGuardrails.is_chess_related (pre ++ "O-O" ++ post) = true.
Proof.
  intros pre post Hb Hp.
  destruct (castling_matches (String.length pre) _ post Hb Hp) as [m Hm].
  apply (notation_accepted ChessGuardrails.castling).
  - right. right. left. reflexivity.
  - exact (found_at _ _ _ _ Hm).
Qed.

Lemma castling_is_accepted_witness :
  ChessGuardrails.is_chess_related "am I allowed O-O-O here?" = true.
Proof.
  apply (castling_is_accepted "am I allowed " "-O here?"); reflexivity.
Defined.

(* ------------------------------------------------------------------ *)
(** ** White space and letter case in the greeting detector *)

Section GreetingPadding.
Import PyStr.

Lemma lstrip_app_spaces (pre x : string) :
  all_in Re.CSpace pre = true -> lstrip (pre ++ x) = lstrip x.
Proof.
  induction pre as [|c pre IH]; simpl; [reflexivity|].
  intros H. apply andb_true_iff in H. destruct H as [Hc Hp].
  rewrite Hc. now apply IH.
Qed.

Lemma rstrip_spaces (post : string) :
  all_in Re.CSpace post = true -> rstrip post = "".
Proof.
  induction post as [|c post IH]; simpl; [reflexivity|].
  intros H. apply andb_true_iff in H. destruct H as [Hc Hp].
  now rewrite (IH Hp), Hc.
Qed.

Lemma rstrip_app_spaces (x post : string) :
  all_in Re.CSpace post = true -> rstrip (x ++ post) = rstrip x.
Proof.
  intros H. induction x as [|c x IH]; simpl.
  - now apply rstrip_spaces.
  - now rewrite IH.
Qed.

Lemma strip_app_spaces (t post : string) :
  all_in Re.CSpace post = true -> strip (t ++ post) = strip t.
Proof.
  intros H. unfold strip. induction t as [|c t IH]; simpl.
  - now rewrite (lstrip_spaces post H).
  - destruct (isspace c); [exact IH|].
    exact (rstrip_app_spaces (String c t) post H).
Qed.

Lemma strip_padded (pre t post : string) :
  all_in Re.CSpace pre = true -> all_in Re.CSpace post = true ->
  strip (pre ++ t ++ post) = strip t.
Proof.
  intros Hpre Hpost. unfold strip at 1. rewrite (lstrip_app_spaces _ _ Hpre).
  exact (strip_app_spaces t post Hpost).
Qed.

End GreetingPadding.

(** X15.  White space around a text and the case of its letters never
    matter to the greeting detector: a text padded with white space is a
    greeting exactly when any text with the same lower-case form is. *)
Theorem is_greeting_ignores_padding_and_case :
  forall pre t post t' : string,
    all_in Re.CSpace pre = true -> all_in Re.CSpace post = true ->
    PyStr.lower t = PyStr.lower t' ->
    PersonalizationHelper.is_greeting (pre ++ t ++ post)
    = PersonalizationHelper.is_greeting t'.
Proof.
  intros pre t post t' Hpre Hpost E.
  rewrite !is_greeting_normal_form, (strip_padded pre t post Hpre Hpost).
  now rewrite <- !strip_lower, E.
Qed.

Lemma is_greeting_ignores_padding_and_case_witness :
  PersonalizationHelper.is_greeting ("   " ++ "GoOd EveNing" ++ "  ")
  = PersonalizationHelper.is_greeting "good evening".
Proof.
  apply (is_greeting_ignores_padding_and_case
           "   " "GoOd EveNing" "  " "good evening"); reflexivity.
Defined.

(* ------------------------------------------------------------------ *)
(** ** Export and download *)

Section ExportGrowth.
Local Open Scope list_scope.

Lemma numbered_blocks_app (a b : list message) :
  forall idx : nat,
    numbered_blocks idx (a ++ b)
    = (numbered_blocks idx a ++ numbered_blocks (idx + List.length a) b)%string.
Proof.
  induction a as [|m a IH]; intros idx; simpl.
  - now rewrite Nat.add_0_r.
  - rewrite IH, append_assoc. now rewrite Nat.add_succ_r.
Qed.

Lemma main_keeps_history (key : option string) (now : string)
      (llm : llm_client) (st : session_state) (ev : event) :
  keeps_history st -> keeps_history (fst (main key now llm st ev)).
Proof.
  intros H. destruct (main_history key now llm st ev H) as (msgs & E & Hm).
  intros msgs' E'. rewrite E in E'. now injection E' as <-.
Qed.

End ExportGrowth.

(** X16.  The export only grows with the history.  When messages are
    added and the start time, the name and the count stay, a later export
    has the header of the earlier one but for the export time, then the
    blocks of the earlier one, then the blocks of the new messages,
    numbered on from the old ones; taken at the same export time, it is
    the earlier export followed by the new blocks. *)
Theorem export_grows_by_blocks :
  forall (now later : string) (s s' : session) (added : list message),
    session_start_time s' = session_start_time s ->
    user_name s' = user_name s ->
    total_questions s' = total_questions s ->
    messages s' = (messages s ++ added)%list ->
    export_conversation_history now s
    = export_header now s ++ numbered_blocks 1 (messages s)
    /\ export_conversation_history later s'
       = export_header later s ++ numbered_blocks 1 (messages s)
           ++ numbered_blocks (S (List.length (messages s))) added
    /\ export_conversation_history now s'
       = export_conversation_history now s
           ++ numbered_blocks (S (List.length (messages s))) added.
Proof.
  intros now later s s' added Ht Hn Hq Hm.
  assert (H : forall t,
             export_conversation_history t s'
             = export_header t s ++ numbered_blocks 1 (messages s)
                 ++ numbered_blocks (S (List.length (messages s))) added).
  { intros t. unfold export_conversation_history.
    rewrite export_loop_blocks, Hm, numbered_blocks_app.
    unfold export_header. now rewrite Ht, Hn, Hq. }
  split; [|split].
  - unfold export_conversation_history. apply export_loop_blocks.
  - apply H.
  - rewrite H. unfold export_conversation_history at 1.
    rewrite export_loop_blocks. now rewrite append_assoc.
Qed.

Lemma export_grows_by_blocks_witness :
  export_conversation_history "2024-05-01 10:05:00"
    (fst (handle_input failing_client fresh_session "hello"))
  = export_header "2024-05-01 10:05:00" fresh_session
      ++ numbered_blocks 1 (messages fresh_session)
      ++ numbered_blocks 2
           [mkMessage user "hello";
            mkMessage assistant
              (PersonalizationHelper.get_greeting_response None)].
Proof.
  apply (export_grows_by_blocks "2024-05-01 10:00:00" "2024-05-01 10:05:00"
           fresh_session
           (fst (handle_input failing_client fresh_session "hello"))
           [mkMessage user "hello";
            mkMessage assistant
              (PersonalizationHelper.get_greeting_response None)]);
    reflexivity.
Defined.

(** X17.  After any sequence of runs, when the sidebar offers the
    download, at least one turn has been completed, the data is the
    export of the session, and the file name is chess_chat_anonymous.txt
    or chess_chat_ followed by a capitalized name of letters and .txt. *)
Theorem download_after_runs :
  forall (key : option string)
         (script : list (string * llm_client * event))
         (now : string) (s : session) (file data : string),
    initialize_session_state key now (runs key script no_keys) = Ready s ->
    download_button now s = Some (file, data) ->
    3 <= List.length (messages s)
    /\ data = export_conversation_history now s
    /\ (file = "chess_chat_anonymous.txt"
        \/ exists n, capitalized n = true
                     /\ file = "chess_chat_" ++ n ++ ".txt").
Proof.
  intros key script now s file data Hi Hd.
  destruct (initialize_ready _ _ _ _ Hi) as (Em & En & _).
  assert (Hh : history (messages s)).
  { rewrite Em.
    assert (K : keeps_history (runs key script no_keys)).
    { apply (runs_preserve keeps_history key).
      - intros now' llm st ev. apply main_keeps_history.
      - intros msgs E. discriminate. }
    destruct (key_messages (runs key script no_keys)) as [msgs|] eqn:E;
      cbn [setdefault].
    - now apply K.
    - apply history_seed. }
  assert (Hn : forall n, user_name s = Some n -> capitalized n = true).
  { intros n E.
    assert (K : name_ok (runs key script no_keys)).
    { apply (runs_preserve name_ok key (main_name_ok key)).
      intros m Hm. discriminate. }
    apply K. unfold stored_name. rewrite E in En.
    destruct (key_user_name (runs key script no_keys)) as [[m|]|];
      cbn [setdefault] in En; congruence. }
  unfold download_button in Hd.
  destruct (Nat.ltb 1 (List.length (messages s))) eqn:L; [|discriminate].
  injection Hd as <- <-. apply Nat.ltb_lt in L.
  split; [|split; [reflexivity|]].
  - destruct (history_odd _ Hh) as [k Hk]. lia.
  - destruct (user_name s) as [n|] eqn:E.
    + right. exists n. split; [now apply Hn|].
      unfold PyStr.or_else. now rewrite (capitalized_nonempty n (Hn n eq_refl)).
    + left. reflexivity.
Qed.

Lemma download_after_runs_witness :
  exists data,
    download_button "2024-05-01 10:00:00"
      (fst (handle_input answering_client fresh_session
                         "call me maGNus, what is a pin?"))
    = Some ("chess_chat_Magnus.txt", data)
    /\ data = export_conversation_history "2024-05-01 10:00:00"
                (fst (handle_input answering_client fresh_session
                                   "call me maGNus, what is a pin?")).
Proof.
  eexists. split; [reflexivity|].
  apply (download_after_runs (Some "gsk-key")
           [("2024-05-01 09:30:00", answering_client,
             ChatInput "call me maGNus, what is a pin?")]
           "2024-05-01 10:00:00"
           (fst (handle_input answering_client fresh_session
                              "call me maGNus, what is a pin?"))
           "chess_chat_Magnus.txt"); reflexivity.
Defined.

Section Introductions.
Import PyStr Re ChessGuardrails.
Local Open Scope re_scope.

Lemma plus_from_cons {A : Type} (k : cls) (n : nat) (a : ascii) (s : string)
      (g : mark) (cont : cursor -> mark -> option A) :
  plus_from k n (String a s) g cont
  = if in_cls k a
    then match plus_from k (S n) s g cont with
         | Some x => Some x
         | None => cont (mkCursor (S n) (Some a) s) g
         end
    else None.
Proof. reflexivity. Qed.

Lemma plus_from_some {A : Type} (k : cls) (rest : string) (g : mark)
      (cont : cursor -> mark -> option A) :
  (forall c, ahead c = rest -> exists x, cont c g = Some x) ->
  forall (ws : string) (a : ascii) (n : nat),
    all_in k (String a ws) = true ->
    exists x, plus_from k n (String a ws ++ rest) g cont = Some x.
Proof.
  intros Hc. induction ws as [|d ws IH]; intros a n H;
    cbn [all_in] in H; apply andb_true_iff in H; destruct H as [Ha Hw];
    cbn [append]; rewrite plus_from_cons, Ha.
  - destruct (plus_from k (S n) rest g cont) as [x|]; [now exists x|].
    apply Hc. reflexivity.
  - destruct (IH d (S n) Hw) as [x Hx]. cbn [append] in Hx. rewrite Hx.
    now exists x.
Qed.

Lemma introduction_matches (n : nat) (b : option ascii)
      (intro ws post : string) (s a : ascii) :
  In intro (words introductions) ->
  all_in CSpace (String s ws) = true -> in_cls letter a = true ->
  exists m,
    match_at (Group introductions <.> Plus CSpace <.> Plus letter)
             (mkCursor n b (intro ++ String s ws ++ String a post))
    = Some m.
Proof.
  intros Hi Hs Ha.
  assert (Hl : forall (g : mark) (c : cursor),
             ahead c = String a post ->
             exists x,
               plus_from letter (pos c) (ahead c) g
                 (fun c' g' => Some (mkMatch n (pos c') g')) = Some x).
  { intros g c E. rewrite E.
    apply (plus_from_some letter post g _ (fun c' _ => ex_intro _ _ eq_refl)
             "" a (pos c)).
    cbn [all_in]. now rewrite Ha. }
  unfold match_at. simpl in Hi.
  repeat (destruct Hi as [<- | Hi];
          [cbn [run introductions eat ahead pos before append];
           cbn [Ascii.eqb Bool.eqb]; cbn [pos ahead];
           match goal with
           | |- context [plus_from CSpace ?p (String s ?r) ?g ?cont] =>
               destruct (plus_from_some CSpace (String a post) g cont (Hl g)
                           ws s p Hs) as [x Hx];
               cbn [append] in Hx; rewrite Hx
           end;
           eexists; reflexivity | ]).
  contradiction.
Qed.

Lemma leading_farewell_found (g rest : string) :
  In g (words leading_farewells) ->
  found (Bol <.> Group leading_farewells) (g ++ rest) = true.
Proof.
  simpl. intros H.
  repeat (destruct H as [<- | H]; [reflexivity|]).
  contradiction.
Qed.

Lemma greeting_pattern_accepted (p : regex) (text : string) :
  In p greeting_patterns -> found p (lower text) = true ->
  is_chess_related text = true.
Proof.
  intros Hp Hf. rewrite is_chess_related_steps.
  replace (greeting_step text) with true; [reflexivity|].
  symmetry. apply existsb_exists. now exists p.
Qed.

Lemma letter_lower (a : ascii) :
  in_cls letter a = true -> in_cls letter (lower_char a) = true.
Proof.
  destruct a as [[] [] [] [] [] [] [] []]; intros H;
    try discriminate H; reflexivity.
Qed.

Lemma spaces_lower (ws : string) :
  all_in CSpace ws = true -> all_in CSpace (lower ws) = true.
Proof.
  induction ws as [|c ws IH]; simpl; [reflexivity|].
  intros H. apply andb_true_iff in H. destruct H as [Hc Hw].
  now rewrite isspace_lower_char, Hc, IH.
Qed.

End Introductions.

(** X18.  A text that begins with a word of thanks or farewell (thank
    you, thanks, bye, goodbye), in any letter case, is chess-related
    whatever follows. *)
Theorem leading_farewell_is_accepted :
  forall text g w rest : string,
    In g (words ChessGuardrails.leading_farewells) ->
    text = w ++ rest -> PyStr.lower w = g ->
    ChessGuardrails.is_chess_related text = true.
Proof.
  intros text g w rest Hg -> E.
  apply (greeting_pattern_accepted
           (Re.Cat Re.Bol (Re.Group ChessGuardrails.leading_farewells))).
  - right. right. left. reflexivity.
  - rewrite lower_app, E. now apply leading_farewell_found.
Qed.

Lemma leading_farewell_is_accepted_witness :
  ChessGuardrails.is_chess_related "Thanks, what is the weather like?" = true.
Proof.
  apply (leading_farewell_is_accepted "Thanks, what is the weather like?"
           "thanks" "Thanks" ", what is the weather like?");
    [apply mem_In|..]; reflexivity.
Defined.

(** X19.  A text that holds a self-introduction anywhere, one of the
    phrases i am, i'm, my name is, this is, call me in any letter case,
    then white space, then a letter, is chess-related whatever else it
    says. *)
Theorem introduction_is_accepted :
  forall (text pre w ws post g : string) (s a : ascii),
    In g (words ChessGuardrails.introductions) ->
    text = pre ++ w ++ String s ws ++ String a post ->
    PyStr.lower w = g ->
    all_in Re.CSpace (String s ws) = true ->
    Re.in_cls ChessGuardrails.letter a = true ->
    ChessGuardrails.is_chess_related text = true.
Proof.
  intros text pre w ws post g s a Hg -> E Hs Ha.
  apply (greeting_pattern_accepted
           (Re.Cat (Re.Group ChessGuardrails.introductions)
                   (Re.Cat (Re.Plus Re.CSpace)
                           (Re.Plus ChessGuardrails.letter)))).
  - right. left. reflexivity.
  - rewrite !lower_app, E.
    change (PyStr.lower (String s ws)) with (PyStr.lower (String s "" ++ ws)).
    destruct (introduction_matches (String.length (PyStr.lower pre))
                (before_end None (PyStr.lower pre)) g (PyStr.lower ws)
                (PyStr.lower post) (PyStr.lower_char s) (PyStr.lower_char a)
                Hg (spaces_lower (String s ws) Hs) (letter_lower a Ha))
      as [m Hm].
    exact (found_at _ _ _ _ Hm).
Qed.

Lemma introduction_is_accepted_witness :
  ChessGuardrails.is_chess_related "Well, THIS IS  nonsense about cooking"
  = true.
Proof.
  apply (introduction_is_accepted "Well, THIS IS  nonsense about cooking"
           "Well, " "THIS IS" " " "onsense about cooking" "this is"
           " " "n"); [apply mem_In|..]; reflexivity.
Defined.

Section ExtractAtStart.
Import PyStr Re.
Local Open Scope re_scope.









End ExtractAtStart.




(* ------------------------------------------------------------------ *)
(** ** Inputs without letters *)

Section NoLetters.
Import PyStr Re ChessGuardrails.
Local Open Scope re_scope.

Lemma no_letter_head (s : string) :
  no_letter s = true -> starts_in letter s = false.
Proof.
  destruct s as [|c s]; [reflexivity|]. cbn [no_letter starts_in].
  intros H. apply andb_true_iff in H. destruct H as [H _].
  now apply negb_true_iff in H.
Qed.

Lemma not_letter_lower (c : ascii) :
  in_cls letter c = false -> in_cls letter (lower_char c) = false.
Proof.
  destruct c as [[] [] [] [] [] [] [] []]; intros H;
    try discriminate H; reflexivity.
Qed.

Lemma no_letter_lower (s : string) :
  no_letter s = true -> no_letter (lower s) = true.
Proof.
  induction s as [|c s IH]; cbn [lower no_letter]; [reflexivity|].
  intros H. apply andb_true_iff in H. destruct H as [Hc Hs].
  apply negb_true_iff in Hc.
  now rewrite (not_letter_lower c Hc), (IH Hs).
Qed.

Lemma no_letter_lstrip (s : string) :
  no_letter s = true -> no_letter (lstrip s) = true.
Proof.
  induction s as [|c s IH]; cbn [lstrip no_letter]; [reflexivity|].
  intros H. destruct (isspace c).
  - apply andb_true_iff in H. now apply IH.
  - cbn [no_letter]. exact H.
Qed.

Lemma no_letter_rstrip (s : string) :
  no_letter s = true -> no_letter (rstrip s) = true.
Proof.
  induction s as [|c s IH]; cbn [rstrip no_letter]; [reflexivity|].
  intros H. apply andb_true_iff in H. destruct H as [Hc Hs].
  specialize (IH Hs). destruct (rstrip s) as [|d r].
  - destruct (isspace c); cbn [no_letter]; [reflexivity | now rewrite Hc].
  - cbn [no_letter] in *. now rewrite Hc, IH.
Qed.

(** A letter is not the head of a text that starts with no letter. *)
Lemma head_differs (x : ascii) (b : ascii) :
  in_cls letter x = true -> in_cls letter b = false -> Ascii.eqb x b = false.
Proof.
  intros Hx Hb. destruct (Ascii.eqb x b) eqn:E; [|reflexivity].
  apply Ascii.eqb_eq in E. subst b. congruence.
Qed.

Lemma startswith_no_letter (k s : string) :
  starts_in letter k = true -> starts_in letter s = false ->
  startswith k s = false.
Proof.
  destruct k as [|x k]; [discriminate|]. destruct s as [|b s]; [reflexivity|].
  cbn [starts_in startswith]. intros Hx Hb.
  now rewrite (head_differs x b Hx Hb).
Qed.

Lemma isin_no_letter (k s : string) :
  starts_in letter k = true -> no_letter s = true -> isin k s = false.
Proof.
  intros Hk. induction s as [|b s IH]; intros H.
  - cbn [isin]. now rewrite (startswith_no_letter k "" Hk eq_refl).
  - cbn [isin].
    rewrite (startswith_no_letter k (String b s) Hk (no_letter_head _ H)).
    cbn [no_letter] in H. apply andb_true_iff in H. now apply IH.
Qed.

Lemma eat_no_letter (k : string) (c : cursor) :
  starts_in letter k = true -> starts_in letter (ahead c) = false ->
  eat k c = None.
Proof.
  destruct k as [|x k]; [discriminate|]. cbn [starts_in eat]. intros Hx Hb.
  destruct (ahead c) as [|b s]; [reflexivity|]. cbn [starts_in] in Hb.
  now rewrite (head_differs x b Hx Hb).
Qed.

Lemma file_is_letter (b : ascii) :
  in_cls letter b = false ->
  in_cls (CRange "a" "h") b = false /\ in_cls (COneOf "KQRBN") b = false.
Proof.
  destruct b as [[] [] [] [] [] [] [] []]; intros H;
    try discriminate H; split; reflexivity.
Qed.

(** Every pattern of the guardrail starts with a letter. *)
Lemma guardrail_pattern_needs_letter (p : regex) (c : cursor) :
  In p (greeting_patterns ++ patterns) ->
  starts_in letter (ahead c) = false -> match_at p c = None.
Proof.
  intros Hp Hc. unfold match_at.
  assert (He : forall k, starts_in letter k = true -> eat k c = None)
    by (intros k Hk; now apply eat_no_letter).
  simpl in Hp.
  repeat (destruct Hp as [<- | Hp];
          [cbn [run leading_greetings introductions leading_farewells
                square piece_move castling];
           rewrite ?He by reflexivity;
           try (destruct (before c); reflexivity);
           try (destruct (xorb _ _); reflexivity) | ]);
    try contradiction;
    (destruct (xorb _ _); [|reflexivity];
     destruct (ahead c) as [|b s']; [reflexivity|];
     cbn [starts_in] in Hc; destruct (file_is_letter b Hc) as [F P];
     rewrite ?F, ?P; reflexivity).
Qed.

Lemma search_no_letter (p : regex) :
  (forall c, starts_in letter (ahead c) = false -> match_at p c = None) ->
  forall (s : string) (n : nat) (b : option ascii),
    no_letter s = true -> search_from p n b s = None.
Proof.
  intros Hp. induction s as [|a s IH]; intros n b H; cbn [search_from].
  - now rewrite (Hp (mkCursor n b "") eq_refl).
  - rewrite (Hp (mkCursor n b (String a s)) (no_letter_head _ H)).
    cbn [no_letter] in H. apply andb_true_iff in H. now apply IH.
Qed.

Lemma existsb_none {A : Type} (f : A -> bool) (l : list A) :
  (forall x, In x l -> f x = false) -> existsb f l = false.
Proof.
  induction l as [|x l IH]; intros H; [reflexivity|]. cbn [existsb].
  rewrite (H x (or_introl eq_refl)). apply IH.
  intros y Hy. apply H. now right.
Qed.

Lemma found_no_letter (p : regex) (s : string) :
  In p (greeting_patterns ++ patterns) -> no_letter s = true ->
  found p s = false.
Proof.
  intros Hp Hs. unfold found, search.
  now rewrite (search_no_letter p
                 (fun c => guardrail_pattern_needs_letter p c Hp) s 0 None Hs).
Qed.

Lemma keyword_starts_with_letter (k : string) :
  In k CHESS_KEYWORDS -> starts_in letter k = true.
Proof.
  assert (F : forallb (starts_in letter) CHESS_KEYWORDS = true) by reflexivity.
  exact (proj1 (forallb_forall _ _) F k).
Qed.

Lemma greeting_starts_with_letter (g : string) :
  In g PersonalizationHelper.simple_greetings -> starts_in letter g = true.
Proof.
  assert (F : forallb (starts_in letter)
                      PersonalizationHelper.simple_greetings = true)
    by reflexivity.
  exact (proj1 (forallb_forall _ _) F g).
Qed.

End NoLetters.

(** X21.  An input without any letter a-z or A-Z (digits, punctuation,
    white space) is never a greeting and never chess-related: the turn
    takes the rejection branch. *)
Theorem input_without_letters_is_rejected :
  forall text : string,
    no_letter text = true ->
    PersonalizationHelper.is_greeting text = false
    /\ ChessGuardrails.is_chess_related text = false
    /\ dispatch text = RejectionBranch.
Proof.
  intros text H.
  assert (Hg : PersonalizationHelper.is_greeting text = false).
  { unfold PersonalizationHelper.is_greeting. apply mem_not_In. intros Hin.
    pose proof (greeting_starts_with_letter _ Hin) as Hs.
    unfold PyStr.strip in Hs.
    now rewrite (no_letter_head _
                   (no_letter_rstrip _
                      (no_letter_lstrip _ (no_letter_lower _ H)))) in Hs. }
  assert (Hc : ChessGuardrails.is_chess_related text = false).
  { rewrite is_chess_related_steps.
    unfold greeting_step, keyword_step, notation_step.
    rewrite !existsb_none; [reflexivity | | |].
    - intros p Hp. apply found_no_letter; [|exact H].
      apply in_or_app. now right.
    - intros k Hk. apply isin_no_letter.
      + now apply keyword_starts_with_letter.
      + now apply no_letter_lower.
    - intros p Hp. apply found_no_letter; [|now apply no_letter_lower].
      apply in_or_app. now left. }
  split; [exact Hg|]. split; [exact Hc|].
  unfold dispatch. now rewrite Hg, Hc.
Qed.

Lemma input_without_letters_is_rejected_witness :
  dispatch "1 + 1 = ?" = RejectionBranch.
Proof.
  apply (input_without_letters_is_rejected "1 + 1 = ?"). reflexivity.
Defined.
